(** * tiny-logger: a shallow embedding of [include/simple_logger.h]

    The header defines a severity enumeration, a label function, a
    configuration class holding the process-wide log file, and the class
    template [SimpleLogger<Level>] whose objects each represent one log
    statement.  Output streams, the disk and the clock are modelled as an
    explicit world that every operation threads through a small state
    monad; the formatting state of a stream (fill character, field width,
    formatting flags, failure bit) is kept because the preamble depends on
    it and the logger never restores it. *)

From stdpp Require Import gmap strings list.
From Stdlib Require Import ZArith Ascii String DecimalString.

Open Scope string_scope.

(** ** Severity levels *)

(** [enum class LogLevel : uint8_t].  A scoped enumeration can hold every
    value of its underlying type, so a level is the underlying number; the
    four enumerators are named constants. *)
Definition LogLevel : Type := N.

Module LogLevel.
Definition Debug : LogLevel := 0%N.
Definition Info : LogLevel := 1%N.
Definition Warning : LogLevel := 2%N.
Definition Error : LogLevel := 3%N.
End LogLevel.

(** [logLevelToString]: a switch over the four enumerators with a
    [default] branch. *)
Definition logLevelToString (level : LogLevel) : string :=
  match level with
  | 0%N => "Debug"
  | 1%N => "Info"
  | 2%N => "Warning"
  | 3%N => "Error"
  | _ => "Unknown"
  end.

(** ** Build configuration *)

(** The [static constexpr] members of [SimpleLoggerConfig].  [logLevel]
    depends on [NDEBUG]; [timezoneAdjustment] is the constant the user
    edits, [0] in the repository. *)
Record SimpleLoggerConfig := {
  logLevel : LogLevel;
  timezoneAdjustment : Z
}.

Definition config_ndebug : SimpleLoggerConfig :=
  {| logLevel := LogLevel.Info; timezoneAdjustment := 0 |}.

Definition config_debug : SimpleLoggerConfig :=
  {| logLevel := LogLevel.Debug; timezoneAdjustment := 0 |}.

(** ** Text helpers *)

Definition newline : ascii := "010"%char.

Definition endl_text : string := String newline EmptyString.

(** Decimal rendering of an integer, as [operator<<] prints a [long] with
    the default flags (base ten, a minus sign for negative values). *)
Definition decimal (z : Z) : string := NilZero.string_of_int (Z.to_int z).

Fixpoint fill_string (n : nat) (c : ascii) : string :=
  match n with
  | O => EmptyString
  | S n' => String c (fill_string n' c)
  end.

(** Padding of a formatted field: the default adjustment is to the right,
    so the fill characters come first; a text at least as long as the field
    is printed whole. *)
Definition pad (fillc : ascii) (w : nat) (s : string) : string :=
  fill_string (w - String.length s) fillc ++ s.

(** ** Formatting flags *)

(** The part of [std::ios_base::fmtflags] that decides how texts and
    integers are written.  [basefield] selects octal or hexadecimal, and
    anything else means decimal; [adjustfield] selects left or internal
    adjustment, and anything else means adjustment to the right.  The
    locale is the classic one: digits are not grouped. *)
Inductive basefield := Dec | Hex | Oct.

Inductive adjustfield := AdjRight | AdjLeft | AdjInternal.

Record fmtflags := {
  ff_base : basefield;
  ff_adjust : adjustfield;
  ff_showpos : bool;
  ff_showbase : bool;
  ff_uppercase : bool
}.

(** The flags of a stream that nobody has touched. *)
Definition fmtflags_init : fmtflags :=
  {| ff_base := Dec; ff_adjust := AdjRight; ff_showpos := false;
     ff_showbase := false; ff_uppercase := false |}.

(** The manipulators [std::hex], [std::dec], [std::oct], [std::left],
    [std::right], [std::internal], [std::showpos] and so on: each
    replaces one field. *)
Definition set_base (b : basefield) (fl : fmtflags) : fmtflags :=
  {| ff_base := b; ff_adjust := ff_adjust fl; ff_showpos := ff_showpos fl;
     ff_showbase := ff_showbase fl; ff_uppercase := ff_uppercase fl |}.

Definition set_adjust (a : adjustfield) (fl : fmtflags) : fmtflags :=
  {| ff_base := ff_base fl; ff_adjust := a; ff_showpos := ff_showpos fl;
     ff_showbase := ff_showbase fl; ff_uppercase := ff_uppercase fl |}.

Definition set_showpos (b : bool) (fl : fmtflags) : fmtflags :=
  {| ff_base := ff_base fl; ff_adjust := ff_adjust fl; ff_showpos := b;
     ff_showbase := ff_showbase fl; ff_uppercase := ff_uppercase fl |}.

Definition set_showbase (b : bool) (fl : fmtflags) : fmtflags :=
  {| ff_base := ff_base fl; ff_adjust := ff_adjust fl;
     ff_showpos := ff_showpos fl; ff_showbase := b;
     ff_uppercase := ff_uppercase fl |}.

Definition set_uppercase (b : bool) (fl : fmtflags) : fmtflags :=
  {| ff_base := ff_base fl; ff_adjust := ff_adjust fl;
     ff_showpos := ff_showpos fl; ff_showbase := ff_showbase fl;
     ff_uppercase := b |}.

(** One digit, for bases up to sixteen. *)
Definition digit_char (upper : bool) (d : N) : ascii :=
  match d with
  | 0%N => "0" | 1%N => "1" | 2%N => "2" | 3%N => "3" | 4%N => "4"
  | 5%N => "5" | 6%N => "6" | 7%N => "7" | 8%N => "8" | 9%N => "9"
  | 10%N => if upper then "A" else "a"
  | 11%N => if upper then "B" else "b"
  | 12%N => if upper then "C" else "c"
  | 13%N => if upper then "D" else "d"
  | 14%N => if upper then "E" else "e"
  | _ => if upper then "F" else "f"
  end%char.

(** The digits of [n] in a base, most significant first, in front of
    [acc]; [fuel] bounds the number of digits. *)
Fixpoint digits_from (fuel : nat) (base : N) (upper : bool) (n : N)
    (acc : string) : string :=
  match fuel with
  | O => acc
  | S fuel' =>
      let acc' := String (digit_char upper (n mod base)) acc in
      if (n / base =? 0)%N then acc'
      else digits_from fuel' base upper (n / base) acc'
  end.

Definition digits (base : N) (upper : bool) (n : N) : string :=
  digits_from (S (N.to_nat (N.log2 n))) base upper n "".

(** An integer as [std::num_put] writes it, in two parts: what internal
    adjustment keeps at the left edge of the field (a sign, or the [0x] of
    a hexadecimal number), and the rest.  In decimal a negative value has
    a minus sign and [showpos] gives the others a plus sign; in octal and
    hexadecimal the value is written as the unsigned number with the same
    bits, with the base in front of it under [showbase] unless it is
    zero. *)
Definition format_unsigned (fl : fmtflags) (n : N) : string * string :=
  match ff_base fl with
  | Dec => ("", decimal (Z.of_N n))
  | Hex =>
      (if ff_showbase fl && negb (n =? 0)%N
       then (if ff_uppercase fl then "0X" else "0x") else "",
       digits 16 (ff_uppercase fl) n)
  | Oct =>
      ("", (if ff_showbase fl && negb (n =? 0)%N then "0" else "")
           ++ digits 8 false n)
  end.

(** A [long]: 64 bits. *)
Definition format_long (fl : fmtflags) (z : Z) : string * string :=
  match ff_base fl with
  | Dec =>
      if (z <? 0)%Z then ("-", decimal (- z))
      else (if ff_showpos fl then "+" else "", decimal z)
  | _ => format_unsigned fl (Z.to_N (z mod 2 ^ 64))
  end.

(** Padding of a field to the width of the stream: fill characters go to
    the right of a left-adjusted field, between the two parts of an
    internally adjusted one, and to the left otherwise. *)
Definition pad_field (fl : fmtflags) (fillc : ascii) (w : nat)
    (prefix body : string) : string :=
  match ff_adjust fl with
  | AdjRight => pad fillc w (prefix ++ body)
  | AdjLeft =>
      prefix ++ body ++
      fill_string (w - String.length (prefix ++ body)) fillc
  | AdjInternal =>
      prefix ++
      fill_string (w - String.length (prefix ++ body)) fillc ++ body
  end.

(** Number of line terminators in a text. *)
Fixpoint count_nl (s : string) : nat :=
  match s with
  | EmptyString => O
  | String c s' => (if Ascii.eqb c newline then 1 else 0) + count_nl s'
  end.

(** [std::strrchr]: the result points at the last occurrence of [c], that
    is, it is the suffix of [s] that starts there; [None] is the null
    pointer. *)
Fixpoint strrchr (s : string) (c : ascii) : option string :=
  match s with
  | EmptyString => None
  | String a s' =>
      match strrchr s' c with
      | Some p => Some p
      | None => if Ascii.eqb a c then Some s else None
      end
  end.

(** [p + 1] on a pointer into a character string. *)
Definition ptr_succ (p : string) : string :=
  match p with
  | EmptyString => EmptyString
  | String _ p' => p'
  end.

(** ** Streams *)

(** The part of [std::ios_base]/[std::basic_ios] that decides what the
    logger's insertions write.  The exception mask is empty: a failed
    insertion sets the failure bit and nothing else. *)
Record ios := {
  ios_fail : bool;      (* failbit or badbit is set *)
  ios_fill : ascii;     (* fill() *)
  ios_width : nat;      (* width() *)
  ios_flags : fmtflags  (* flags() *)
}.

Definition ios_init : ios :=
  {| ios_fail := false; ios_fill := " "%char; ios_width := 0;
     ios_flags := fmtflags_init |}.

(** [std::ostream null_stream{nullptr}]: no buffer, so [init] sets badbit. *)
Definition null_ios : ios :=
  {| ios_fail := true; ios_fill := " "%char; ios_width := 0;
     ios_flags := fmtflags_init |}.

Definition ios_set_fail (st : ios) : ios :=
  {| ios_fail := true; ios_fill := ios_fill st; ios_width := ios_width st;
     ios_flags := ios_flags st |}.

Definition ios_set_fill (c : ascii) (st : ios) : ios :=
  {| ios_fail := ios_fail st; ios_fill := c; ios_width := ios_width st;
     ios_flags := ios_flags st |}.

Definition ios_set_width (n : nat) (st : ios) : ios :=
  {| ios_fail := ios_fail st; ios_fill := ios_fill st; ios_width := n;
     ios_flags := ios_flags st |}.

Definition ios_set_flags (fl : fmtflags) (st : ios) : ios :=
  {| ios_fail := ios_fail st; ios_fill := ios_fill st;
     ios_width := ios_width st; ios_flags := fl |}.

(** The fields a stream in state [st] makes of a text, of a [long] and of
    an unsigned integer. *)
Definition text_field (st : ios) (s : string) : string :=
  pad_field (ios_flags st) (ios_fill st) (ios_width st) "" s.

Definition long_field (st : ios) (z : Z) : string :=
  pad_field (ios_flags st) (ios_fill st) (ios_width st)
    (format_long (ios_flags st) z).1 (format_long (ios_flags st) z).2.

Definition unsigned_field (st : ios) (n : N) : string :=
  pad_field (ios_flags st) (ios_fill st) (ios_width st)
    (format_unsigned (ios_flags st) n).1 (format_unsigned (ios_flags st) n).2.

(** [std::ofstream]: formatting state and the file its buffer has open. *)
Record ofstream := {
  of_ios : ios;
  of_path : option string
}.

(** A default-constructed [std::ofstream]: good state, no file. *)
Definition ofstream_default : ofstream :=
  {| of_ios := ios_init; of_path := None |}.

Definition is_open (f : ofstream) : bool :=
  match of_path f with Some _ => true | None => false end.

(** A stream supplied by the caller whose buffer keeps or shows what it
    is given ([std::cout], a string stream): formatting state and the bytes
    its buffer has received.  A file stream of the caller's own is outside
    this model. *)
Record ostream := {
  os_ios : ios;
  os_bytes : string
}.

Definition ostream_init : ostream :=
  {| os_ios := ios_init; os_bytes := "" |}.

(** What a [std::ostream&] can refer to. [null_stream] is a static member
    of the class template, hence one object per [Level]. *)
Inductive stream_ref :=
  | NullStream (Level : LogLevel)
  | LogFile
  | Caller (id : nat).

(** ** The world *)

Inductive Event :=
  | EvOpen (path : string) (ok : bool)   (* an attempt to open for writing *)
  | EvNow.                               (* a reading of the clock *)

Record World := {
  disk : gmap string string;        (* files and their contents *)
  denied : gset string;             (* paths that cannot be opened *)
  clock : Z;                        (* nanoseconds since the epoch *)
  trace : list Event;               (* system calls so far, oldest first *)
  logFileName : string;             (* SimpleLoggerConfig::logFileName *)
  logFile : ofstream;               (* SimpleLoggerConfig::logFile *)
  null_stream : gmap N ios;         (* SimpleLogger<Level>::null_stream *)
  streams : gmap nat ostream        (* streams owned by the caller *)
}.

(** The state of the process before the first statement runs. *)
Definition initial_world (cfg : SimpleLoggerConfig)
    (d : gmap string string) (no : gset string) (t : Z) : World :=
  {| disk := d; denied := no; clock := t; trace := [];
     logFileName := logLevelToString (logLevel cfg) ++ ".log";
     logFile := ofstream_default;
     null_stream := ∅; streams := ∅ |}.

Definition set_disk (d : gmap string string) (w : World) : World :=
  {| disk := d; denied := denied w; clock := clock w; trace := trace w;
     logFileName := logFileName w; logFile := logFile w;
     null_stream := null_stream w; streams := streams w |}.

Definition add_event (e : Event) (w : World) : World :=
  {| disk := disk w; denied := denied w; clock := clock w;
     trace := trace w ++ [e];
     logFileName := logFileName w; logFile := logFile w;
     null_stream := null_stream w; streams := streams w |}.

Definition set_logFile (f : ofstream) (w : World) : World :=
  {| disk := disk w; denied := denied w; clock := clock w; trace := trace w;
     logFileName := logFileName w; logFile := f;
     null_stream := null_stream w; streams := streams w |}.

Definition set_null_stream (m : gmap N ios) (w : World) : World :=
  {| disk := disk w; denied := denied w; clock := clock w; trace := trace w;
     logFileName := logFileName w; logFile := logFile w;
     null_stream := m; streams := streams w |}.

Definition set_streams (m : gmap nat ostream) (w : World) : World :=
  {| disk := disk w; denied := denied w; clock := clock w; trace := trace w;
     logFileName := logFileName w; logFile := logFile w;
     null_stream := null_stream w; streams := m |}.

(** ** The state monad *)

Definition M (A : Type) : Type := World → A * World.

#[global] Instance M_ret : MRet M := λ A (x : A) w, (x, w).

#[global] Instance M_bind : MBind M := λ A B (f : A → M B) (m : M A) w,
  let '(x, w') := m w in f x w'.

Definition modify (f : World → World) : M unit := λ w, (tt, f w).

Definition gets {A} (f : World → A) : M A := λ w, (f w, w).

(** ** Stream operations *)

(** The formatting state of the stream a reference denotes.  A static
    null stream that has not been touched yet is in its initial state, and
    so is a caller's stream that has not been written to. *)
Definition get_ios (r : stream_ref) (w : World) : ios :=
  match r with
  | NullStream l => default null_ios (null_stream w !! l)
  | LogFile => of_ios (logFile w)
  | Caller id => os_ios (default ostream_init (streams w !! id))
  end.

Definition set_ios (r : stream_ref) (st : ios) (w : World) : World :=
  match r with
  | NullStream l => set_null_stream (<[l := st]> (null_stream w)) w
  | LogFile =>
      set_logFile {| of_ios := st; of_path := of_path (logFile w) |} w
  | Caller id =>
      let o := default ostream_init (streams w !! id) in
      set_streams
        (<[id := {| os_ios := st; os_bytes := os_bytes o |}]> (streams w)) w
  end.

(** Handing bytes to the buffer of a stream ([sputn]); [None] when the
    buffer does not take them.  A null stream has no buffer; a file buffer
    with no open file takes nothing; bytes written to an open file are
    appended to it on disk (buffering is not modelled, every statement ends
    with a flush). *)
Definition sink_write (r : stream_ref) (s : string) (w : World)
    : option World :=
  match r with
  | NullStream _ => None
  | LogFile =>
      match of_path (logFile w) with
      | Some p =>
          Some (set_disk (<[p := default "" (disk w !! p) ++ s]> (disk w)) w)
      | None => match s with EmptyString => Some w | _ => None end
      end
  | Caller id =>
      let o := default ostream_init (streams w !! id) in
      Some (set_streams
              (<[id := {| os_ios := os_ios o; os_bytes := os_bytes o ++ s |}]>
                 (streams w)) w)
  end.

(** The bytes that have reached the destination a reference denotes. *)
Definition bytes_of (r : stream_ref) (w : World) : string :=
  match r with
  | NullStream _ => ""
  | LogFile =>
      match of_path (logFile w) with
      | Some p => default "" (disk w !! p)
      | None => ""
      end
  | Caller id => os_bytes (default ostream_init (streams w !! id))
  end.

(** Formatted insertion: nothing happens on a failed stream; otherwise
    the field the stream makes of the value in its present state is handed
    to the buffer, and the width is reset. *)
Definition ostream_insert (r : stream_ref) (field : ios → string)
    : M unit := λ w,
  let st := get_ios r w in
  if ios_fail st then (tt, w)
  else
    match sink_write r (field st) w with
    | Some w' => (tt, set_ios r (ios_set_width 0 st) w')
    | None => (tt, set_ios r (ios_set_fail st) w)
    end.

(** Unformatted insertion of one character ([put]): no padding, the width
    is left alone. *)
Definition ostream_put (r : stream_ref) (c : ascii) : M unit := λ w,
  let st := get_ios r w in
  if ios_fail st then (tt, w)
  else
    match sink_write r (String c EmptyString) w with
    | Some w' => (tt, w')
    | None => (tt, set_ios r (ios_set_fail st) w)
    end.

(** [os << std::endl]: [put] of the line terminator, then a flush. *)
Definition endl (r : stream_ref) : M unit := ostream_put r newline.

(** The values the logger streams: texts ([const char*], [std::string]),
    signed and unsigned integers, the two manipulators used by
    [print_time], and the manipulators that change formatting flags
    ([std::hex], [std::left], [std::showpos], ...), each given as the
    change it makes. *)
Inductive Token :=
  | TStr (s : string)
  | TLong (z : Z)
  | TUnsigned (n : N)
  | TSetfill (c : ascii)
  | TSetw (n : nat)
  | TManip (m : fmtflags → fmtflags).

(** [stream << token] on a [std::ostream]. *)
Definition ostream_shl (r : stream_ref) (t : Token) : M unit :=
  match t with
  | TStr s => ostream_insert r (λ st, text_field st s)
  | TLong z => ostream_insert r (λ st, long_field st z)
  | TUnsigned n => ostream_insert r (λ st, unsigned_field st n)
  | TSetfill c => modify (λ w, set_ios r (ios_set_fill c (get_ios r w)) w)
  | TSetw n => modify (λ w, set_ios r (ios_set_width n (get_ios r w)) w)
  | TManip m =>
      modify (λ w, set_ios r (ios_set_flags (m (ios_flags (get_ios r w)))
                                (get_ios r w)) w)
  end.

Fixpoint ostream_shl_all (r : stream_ref) (ts : list Token) : M unit :=
  match ts with
  | [] => mret tt
  | t :: ts' => ostream_shl r t;; ostream_shl_all r ts'
  end.

(** ** The shared log file *)

(** [std::ofstream(path)]: opening for output truncates the file; a failed
    open leaves a stream with failbit set and no file. *)
Definition ofstream_open (path : string) : M ofstream := λ w,
  if bool_decide (path ∈ denied w) then
    ({| of_ios := ios_set_fail ios_init; of_path := None |},
     add_event (EvOpen path false) w)
  else
    ({| of_ios := ios_init; of_path := Some path |},
     add_event (EvOpen path true) (set_disk (<[path := ""]> (disk w)) w)).

(** [SimpleLoggerConfig::getLogFile]. *)
Definition getLogFile : M stream_ref :=
  f ← gets logFile;
  (if negb (is_open f) then
     name ← gets logFileName;
     f' ← ofstream_open name;
     modify (set_logFile f')
   else mret tt);;
  mret LogFile.

(** ** The clock *)

(** [std::chrono::high_resolution_clock::now()].  The clock is a field of
    the world; its ticks are nanoseconds, as in the usual standard
    libraries.  Each reading is recorded in the trace. *)
Definition high_resolution_clock_now : M Z := λ w,
  (clock w, add_event EvNow w).

Definition ns_per_ms : Z := 1000000.
Definition ns_per_s : Z := 1000 * ns_per_ms.
Definition ns_per_min : Z := 60 * ns_per_s.
Definition ns_per_h : Z := 60 * ns_per_min.

(** [duration_cast<...>(d).count()]: integer division that truncates
    towards zero. *)
Definition duration_cast (unit_ns : Z) (d : Z) : Z := Z.quot d unit_ns.

(** ** Log statements *)

(** [std::source_location]. *)
Record source_location := {
  file_name : string;
  line : N;
  function_name : string
}.

(** An object of class [SimpleLogger<Level>]: the template argument and
    the reference member. *)
Record SimpleLogger := {
  Level : LogLevel;
  m_stream : stream_ref
}.

Section Logger.

Context (cfg : SimpleLoggerConfig).

(** [static constexpr bool is_active{Level >= SimpleLoggerConfig::logLevel}];
    the comparison of a scoped enumeration compares the underlying values. *)
Definition is_active (Level : LogLevel) : bool := (logLevel cfg <=? Level)%N.

(** [SimpleLogger::operator<<]. *)
Definition shl (this : SimpleLogger) (token : Token) : M SimpleLogger :=
  (if is_active (Level this) then ostream_shl (m_stream this) token
   else mret tt);;
  mret this.

(** A chain [*this << t1 << t2 << ...], evaluated from the left. *)
Fixpoint shl_all (this : SimpleLogger) (tokens : list Token)
    : M SimpleLogger :=
  match tokens with
  | [] => mret this
  | t :: ts => this' ← shl this t; shl_all this' ts
  end.

(** [SimpleLogger::print_time]. *)
Definition print_time (this : SimpleLogger) : M unit :=
  now ← high_resolution_clock_now;
  let time_since_epoch := now in
  let h := (Z.rem (duration_cast ns_per_h time_since_epoch) 24
            + timezoneAdjustment cfg)%Z in
  let min := Z.rem (duration_cast ns_per_min time_since_epoch) 60 in
  let s := Z.rem (duration_cast ns_per_s time_since_epoch) 60 in
  let ms := Z.rem (duration_cast ns_per_ms time_since_epoch) 100 in
  shl_all this
    [TSetfill "0"; TSetw 2; TLong h; TStr ":";
     TSetfill "0"; TSetw 2; TLong min; TStr ":";
     TSetfill "0"; TSetw 2; TLong s; TStr ".";
     TSetfill "0"; TSetw 3; TLong ms];;
  mret tt.

(** [SimpleLogger::print_file_name]. *)
Definition print_file_name (this : SimpleLogger) (file_path : string)
    : M unit :=
  let slash_position := strrchr file_path "/" in
  match slash_position with
  | Some p => shl this (TStr (ptr_succ p));; mret tt
  | None => shl this (TStr file_path);; mret tt
  end.

(** The constructor [SimpleLogger(stream, location)]. *)
Definition SimpleLogger_new (Level : LogLevel) (stream : stream_ref)
    (location : source_location) : M SimpleLogger :=
  let this :=
    {| Level := Level;
       m_stream := if is_active Level then stream else NullStream Level |} in
  if is_active Level then
    shl this (TStr "[");;
    print_time this;;
    shl_all this [TStr "]["; TStr (logLevelToString Level); TStr "]["];;
    print_file_name this (file_name location);;
    shl_all this [TStr ":"; TUnsigned (line location); TStr "]"];;
    shl_all this [TStr "["; TStr (function_name location); TStr "] "];;
    mret this
  else mret this.

(** The destructor. *)
Definition SimpleLogger_delete (this : SimpleLogger) : M unit :=
  if is_active (Level this) then endl (m_stream this) else mret tt.

(** [SimpleLogger::get_stream]. *)
Definition get_stream (this : SimpleLogger) : stream_ref := m_stream this.

(** [SIMPLE_LOGGER_LOG(level, stream) << t1 << ... ;] as a full statement:
    the macro argument [stream] is an expression, evaluated before the
    constructor runs; the temporary dies at the end of the statement. *)
Definition SIMPLE_LOGGER_LOG (level : LogLevel) (stream : M stream_ref)
    (location : source_location) (tokens : list Token) : M unit :=
  s ← stream;
  logger ← SimpleLogger_new level s location;
  logger' ← shl_all logger tokens;
  SimpleLogger_delete logger'.

Definition LOG_DEBUG := SIMPLE_LOGGER_LOG LogLevel.Debug getLogFile.
Definition LOG_INFO := SIMPLE_LOGGER_LOG LogLevel.Info getLogFile.
Definition LOG_WARNING := SIMPLE_LOGGER_LOG LogLevel.Warning getLogFile.
Definition LOG_ERROR := SIMPLE_LOGGER_LOG LogLevel.Error getLogFile.

(** [GET_LOG_STREAM(level, stream, name)] followed by the rest of the
    enclosing scope, which uses [name]; the logger dies at the end of the
    scope. *)
Definition GET_LOG_STREAM (level : LogLevel) (stream : M stream_ref)
    (location : source_location) (scope : stream_ref → M unit) : M unit :=
  s ← stream;
  _sl_logger ← SimpleLogger_new level s location;
  let name := get_stream _sl_logger in
  scope name;;
  SimpleLogger_delete _sl_logger.

End Logger.

(** ** Definitions used by the statements below *)

(** A destination takes bytes when its stream has not failed and its
    buffer is there: a caller's stream always has one, the log file has one
    while a file is open, a null stream never has. *)
Definition accepting (r : stream_ref) (w : World) : bool :=
  negb (ios_fail (get_ios r w)) &&
  match r with
  | NullStream _ => false
  | LogFile => is_open (logFile w)
  | Caller _ => true
  end.

(** The text a token contributes on a stream that takes bytes, and the
    formatting state it leaves. *)
Definition render_token (st : ios) (t : Token) : string * ios :=
  match t with
  | TStr s => (text_field st s, ios_set_width 0 st)
  | TLong z => (long_field st z, ios_set_width 0 st)
  | TUnsigned n => (unsigned_field st n, ios_set_width 0 st)
  | TSetfill c => ("", ios_set_fill c st)
  | TSetw n => ("", ios_set_width n st)
  | TManip m => ("", ios_set_flags (m (ios_flags st)) st)
  end.

Fixpoint render (st : ios) (ts : list Token) : string * ios :=
  match ts with
  | [] => ("", st)
  | t :: ts' =>
      let '(a, st1) := render_token st t in
      let '(b, st2) := render st1 ts' in
      (a ++ b, st2)
  end.

(** A token that cannot put a line terminator into the output. *)
Definition token_nl_free (t : Token) : bool :=
  match t with
  | TStr s => Nat.eqb (count_nl s) 0
  | TLong _ => true
  | TUnsigned _ => true
  | TSetfill c => negb (Ascii.eqb c newline)
  | TSetw _ => true
  | TManip _ => true
  end.

(** The tokens [print_time] streams when the clock reads [t]. *)
Definition time_tokens (cfg : SimpleLoggerConfig) (t : Z) : list Token :=
  [TSetfill "0"; TSetw 2;
   TLong (Z.rem (duration_cast ns_per_h t) 24 + timezoneAdjustment cfg);
   TStr ":";
   TSetfill "0"; TSetw 2; TLong (Z.rem (duration_cast ns_per_min t) 60);
   TStr ":";
   TSetfill "0"; TSetw 2; TLong (Z.rem (duration_cast ns_per_s t) 60);
   TStr ".";
   TSetfill "0"; TSetw 3; TLong (Z.rem (duration_cast ns_per_ms t) 100)].

(** The text [print_file_name] streams for a path. *)
Definition trimmed (file_path : string) : string :=
  match strrchr file_path "/" with
  | Some p => ptr_succ p
  | None => file_path
  end.

(** The tokens the constructor of an active statement streams. *)
Definition preamble_tokens (cfg : SimpleLoggerConfig) (level : LogLevel)
    (t : Z) (location : source_location) : list Token :=
  [TStr "["] ++ time_tokens cfg t ++
  [TStr "]["; TStr (logLevelToString level); TStr "][";
   TStr (trimmed (file_name location));
   TStr ":"; TUnsigned (line location); TStr "]";
   TStr "["; TStr (function_name location); TStr "] "].

(** Trimming in the words of the specification: a path is cut at every
    separator into its components, and the last component is kept. *)
Fixpoint components (sep : ascii) (s : string) : list string :=
  match s with
  | EmptyString => [EmptyString]
  | String a s' =>
      if Ascii.eqb a sep then EmptyString :: components sep s'
      else
        match components sep s' with
        | c :: cs => String a c :: cs
        | [] => [String a EmptyString]
        end
  end.

Definition last_component (sep : ascii) (s : string) : string :=
  List.last (components sep s) EmptyString.

Fixpoint contains (c : ascii) (s : string) : bool :=
  match s with
  | EmptyString => false
  | String a s' => Ascii.eqb a c || contains c s'
  end.

(** What stays the same while a statement writes: the clock, the open
    file, its configured name and the permissions. *)
Definition same_env (w w' : World) : Prop :=
  clock w' = clock w ∧
  of_path (logFile w') = of_path (logFile w) ∧
  logFileName w' = logFileName w ∧ denied w' = denied w.

(** [w'] is [w] after the destination [r] took the bytes [delta], leaving
    its formatting state [st']. *)
Definition extends (r : stream_ref) (delta : string) (st' : ios)
    (w w' : World) : Prop :=
  bytes_of r w' = bytes_of r w ++ delta ∧ get_ios r w' = st' ∧
  accepting r w' = true ∧ same_env w w'.

(** N calls of [getLogFile] in a row; the references returned, in order. *)
Fixpoint getLogFile_times (n : nat) : M (list stream_ref) :=
  match n with
  | O => mret []
  | S n' => r ← getLogFile; rs ← getLogFile_times n'; mret (r :: rs)
  end.

(** Counting system calls in a trace: attempts to open a file, successful
    opens (each truncates the file), readings of the clock. *)
Definition is_open_attempt (e : Event) : bool :=
  match e with EvOpen _ _ => true | EvNow => false end.

Definition is_truncation (e : Event) : bool :=
  match e with EvOpen _ ok => ok | EvNow => false end.

Definition is_clock_read (e : Event) : bool :=
  match e with EvNow => true | EvOpen _ _ => false end.

Definition count_events (p : Event → bool) (evs : list Event) : nat :=
  List.length (List.filter p evs).

(** The timestamp for a clock reading [t] as a stream with flags [fl]
    renders it: four zero-filled fields, of widths 2, 2, 2 and 3, each
    written the way the stream writes a [long]. *)
Definition zero_field (fl : fmtflags) (w : nat) (z : Z) : string :=
  pad_field fl "0" w (format_long fl z).1 (format_long fl z).2.

Definition timestamp_with (fl : fmtflags) (cfg : SimpleLoggerConfig) (t : Z)
    : string :=
  zero_field fl 2 (Z.rem (duration_cast ns_per_h t) 24
                   + timezoneAdjustment cfg) ++ ":" ++
  zero_field fl 2 (Z.rem (duration_cast ns_per_min t) 60) ++ ":" ++
  zero_field fl 2 (Z.rem (duration_cast ns_per_s t) 60) ++ "." ++
  zero_field fl 3 (Z.rem (duration_cast ns_per_ms t) 100).

(** Flags under which integers are written in decimal, without a plus
    sign, adjusted to the right: those of a stream nobody has touched. *)
Definition default_format (fl : fmtflags) : bool :=
  match ff_base fl, ff_adjust fl with
  | Dec, AdjRight => negb (ff_showpos fl)
  | _, _ => false
  end.

(** The timestamp under such flags. *)
Definition timestamp (cfg : SimpleLoggerConfig) (t : Z) : string :=
  pad "0" 2 (decimal (Z.rem (duration_cast ns_per_h t) 24
                      + timezoneAdjustment cfg)) ++ ":" ++
  pad "0" 2 (decimal (Z.rem (duration_cast ns_per_min t) 60)) ++ ":" ++
  pad "0" 2 (decimal (Z.rem (duration_cast ns_per_s t) 60)) ++ "." ++
  pad "0" 3 (decimal (Z.rem (duration_cast ns_per_ms t) 100)).

(** The formatting state [print_time] leaves on a stream. *)
Definition ios_after_time (st : ios) : ios :=
  {| ios_fail := ios_fail st; ios_fill := "0"; ios_width := 0;
     ios_flags := ios_flags st |}.

(** ** Programs that log *)

(** Time passes between statements: the environment sets the clock. *)
Definition set_clock (t : Z) (w : World) : World :=
  {| disk := disk w; denied := denied w; clock := t; trace := trace w;
     logFileName := logFileName w; logFile := logFile w;
     null_stream := null_stream w; streams := streams w |}.

(** An assignment to the public static [SimpleLoggerConfig::logFileName]. *)
Definition set_logFileName (name : string) (w : World) : World :=
  {| disk := disk w; denied := denied w; clock := clock w; trace := trace w;
     logFileName := name; logFile := logFile w;
     null_stream := null_stream w; streams := streams w |}.

(** One statement of the [LOG_...] family as it occurs in a program: its
    level, its call site, its tokens, and what the clock reads when it
    runs. *)
Record Statement := {
  st_time : Z;
  st_level : LogLevel;
  st_location : source_location;
  st_tokens : list Token
}.

Section Programs.

Context (cfg : SimpleLoggerConfig).

Definition run_statement (s : Statement) : M unit :=
  modify (set_clock (st_time s));;
  SIMPLE_LOGGER_LOG cfg (st_level s) getLogFile (st_location s) (st_tokens s).

(** Statements in program order. *)
Fixpoint run_statements (ss : list Statement) : M unit :=
  match ss with
  | [] => mret tt
  | s :: ss' => run_statement s;; run_statements ss'
  end.

(** The text the statements of a program put into a destination that takes
    bytes and starts in formatting state [st], and the state they leave:
    inactive statements contribute nothing, an active one its rendering
    and a line terminator. *)
Fixpoint statements_text (st : ios) (ss : list Statement) : string * ios :=
  match ss with
  | [] => ("", st)
  | s :: ss' =>
      if is_active cfg (st_level s) then
        let '(a, st1) :=
          render st (preamble_tokens cfg (st_level s) (st_time s)
                       (st_location s) ++ st_tokens s) in
        let '(b, st2) := statements_text st1 ss' in
        (a ++ endl_text ++ b, st2)
      else statements_text st ss'
  end.

Definition active_count (ss : list Statement) : nat :=
  List.length (List.filter (λ s, is_active cfg (st_level s)) ss).

End Programs.

(** A statement whose call site and tokens hold no line terminator. *)
Definition statement_nl_free (s : Statement) : bool :=
  Nat.eqb (count_nl (file_name (st_location s))) 0 &&
  Nat.eqb (count_nl (function_name (st_location s))) 0 &&
  forallb token_nl_free (st_tokens s).

Definition is_setfill (t : Token) : bool :=
  match t with TSetfill _ => true | _ => false end.

(** Texts streamed one after the other. *)
Fixpoint join (texts : list string) : string :=
  match texts with
  | [] => ""
  | s :: texts' => s ++ join texts'
  end.

(** [w'] holds the data [w] holds: the same disk, the same bytes in every
    destination, the same system calls, the same open file; formatting
    state may differ. *)
Definition same_data (w w' : World) : Prop :=
  disk w' = disk w ∧ (∀ r, bytes_of r w' = bytes_of r w) ∧
  trace w' = trace w ∧ of_path (logFile w') = of_path (logFile w) ∧
  logFileName w' = logFileName w ∧ denied w' = denied w.

(** * Properties *)

(** ** Texts *)

Lemma str_app_cons (a : ascii) (s t : string) :
  String a s ++ t = String a (s ++ t).
Proof. reflexivity. Qed.

Lemma str_app_nil_l (s : string) : "" ++ s = s.
Proof. reflexivity. Qed.

Lemma str_app_nil_r (s : string) : s ++ "" = s.
Proof.
  induction s as [|a s IH]; [reflexivity|].
  rewrite str_app_cons. by rewrite IH.
Qed.

Lemma str_app_assoc (s t u : string) : (s ++ t) ++ u = s ++ (t ++ u).
Proof.
  induction s as [|a s IH]; [reflexivity|].
  rewrite !str_app_cons. by rewrite IH.
Qed.

Lemma count_nl_app (s t : string) :
  count_nl (s ++ t) = count_nl s + count_nl t.
Proof.
  induction s as [|a s IH]; [reflexivity|].
  rewrite str_app_cons. simpl. rewrite IH. lia.
Qed.

Lemma count_nl_fill (n : nat) (c : ascii) :
  Ascii.eqb c newline = false → count_nl (fill_string n c) = 0.
Proof.
  intros Hc. induction n as [|n IH]; [reflexivity|].
  simpl. by rewrite Hc, IH.
Qed.

Lemma count_nl_digits (d : Decimal.uint) :
  count_nl (NilEmpty.string_of_uint d) = 0.
Proof. induction d; simpl; auto. Qed.

Lemma count_nl_decimal (z : Z) : count_nl (decimal z) = 0.
Proof.
  unfold decimal, NilZero.string_of_int, NilZero.string_of_uint.
  destruct (Z.to_int z) as [d|d]; destruct d; simpl;
    auto using count_nl_digits.
Qed.

Lemma count_nl_pad (c : ascii) (n : nat) (s : string) :
  Ascii.eqb c newline = false → count_nl s = 0 → count_nl (pad c n s) = 0.
Proof.
  intros Hc Hs. unfold pad.
  by rewrite count_nl_app, count_nl_fill, Hs.
Qed.

Lemma pad_width_0 (c : ascii) (s : string) : pad c 0 s = s.
Proof. reflexivity. Qed.

(** ** [strrchr] and trimming *)

Lemma strrchr_none (s : string) (c : ascii) :
  strrchr s c = None ↔ contains c s = false.
Proof.
  induction s as [|a s IH]; simpl; [done|].
  destruct (strrchr s c) as [p|] eqn:E.
  - split; [done|]. intros H. apply orb_false_elim in H as [_ H].
    apply IH in H. done.
  - destruct IH as [IH _]. rewrite (IH eq_refl), orb_false_r.
    destruct (Ascii.eqb a c); done.
Qed.

(** After the last occurrence nothing else occurs: the text is the part
    before, the character, and a part free of it. *)
Lemma strrchr_some (s : string) (c : ascii) (p : string) :
  strrchr s c = Some p →
  ∃ pre, s = pre ++ String c (ptr_succ p) ∧ contains c (ptr_succ p) = false.
Proof.
  revert p. induction s as [|a s IH]; simpl; intros p H; [done|].
  destruct (strrchr s c) as [q|] eqn:E.
  - injection H as <-. destruct (IH q eq_refl) as (pre & -> & Hq).
    exists (String a pre). by rewrite str_app_cons.
  - destruct (Ascii.eqb_spec a c) as [->|]; [|done].
    injection H as <-. exists "". simpl. split; [done|].
    by apply strrchr_none.
Qed.

Lemma strrchr_app_sep (pre suf : string) (c : ascii) :
  contains c suf = false →
  strrchr (pre ++ String c suf) c = Some (String c suf).
Proof.
  intros Hs. apply strrchr_none in Hs.
  induction pre as [|a pre IH].
  - rewrite str_app_nil_l. simpl. by rewrite Hs, Ascii.eqb_refl.
  - rewrite str_app_cons. simpl. by rewrite IH.
Qed.

Lemma trimmed_no_sep (path : string) :
  contains "/" path = false → trimmed path = path.
Proof.
  intros H. unfold trimmed. apply strrchr_none in H. by rewrite H.
Qed.

Lemma trimmed_after_last_sep (pre suf : string) :
  contains "/" suf = false → trimmed (pre ++ String "/" suf) = suf.
Proof.
  intros H. unfold trimmed. by rewrite strrchr_app_sep.
Qed.

Lemma components_strrchr (sep : ascii) (s : string) :
  match strrchr s sep with
  | None => components sep s = [s]
  | Some p =>
      List.last (components sep s) "" = ptr_succ p ∧
      ∃ c d cs, components sep s = c :: d :: cs
  end.
Proof.
  induction s as [|a s IH]; simpl; [done|].
  destruct (strrchr s sep) as [p|] eqn:E.
  - destruct IH as (Hl & c & d & cs & Hc). rewrite Hc in *.
    destruct (Ascii.eqb a sep); (split; [exact Hl | eauto]).
  - rewrite IH. destruct (Ascii.eqb a sep); simpl; eauto.
Qed.

Lemma trimmed_last_component (path : string) :
  trimmed path = last_component "/" path.
Proof.
  unfold trimmed, last_component.
  pose proof (components_strrchr "/" path) as H.
  destruct (strrchr path "/") as [p|].
  - by destruct H as [-> _].
  - by rewrite H.
Qed.

Lemma print_file_name_trimmed (cfg : SimpleLoggerConfig)
    (this : SimpleLogger) (path : string) (w : World) :
  print_file_name cfg this path w
  = (shl cfg this (TStr (trimmed path));; mret tt) w.
Proof. unfold print_file_name, trimmed. by destruct (strrchr path "/"). Qed.

(** ** Streams and the world *)

Lemma same_env_refl (w : World) : same_env w w.
Proof. by repeat split. Qed.

Lemma same_env_trans (w1 w2 w3 : World) :
  same_env w1 w2 → same_env w2 w3 → same_env w1 w3.
Proof.
  unfold same_env. intros (?&?&?&?) (?&?&?&?).
  repeat split; congruence.
Qed.

Lemma extends_trans (r : stream_ref) (d1 d2 : string) (st1 st2 : ios)
    (w w1 w2 : World) :
  extends r d1 st1 w w1 → extends r d2 st2 w1 w2 →
  extends r (d1 ++ d2) st2 w w2.
Proof.
  intros (Hb1 & _ & _ & He1) (Hb2 & Hs2 & Ha2 & He2).
  split; [by rewrite Hb2, Hb1, str_app_assoc|].
  eauto using same_env_trans.
Qed.

Ltac unfold_stream :=
  unfold extends, same_env, accepting, ostream_shl, ostream_insert,
    ostream_put, modify, sink_write, bytes_of, get_ios, set_ios, is_open,
    render_token in *.

(** One token on a destination that takes bytes: its rendering is
    appended, and the destination keeps taking bytes. *)
Lemma ostream_shl_extends (r : stream_ref) (t : Token) (w : World) :
  accepting r w = true →
  extends r (render_token (get_ios r w) t).1 (render_token (get_ios r w) t).2
    w (ostream_shl r t w).2.
Proof.
  intros Ha. destruct r as [l| |id].
  - unfold accepting in Ha. by rewrite andb_false_r in Ha.
  - unfold_stream.
    destruct (logFile w) as [st [p|]] eqn:Ef; simpl in *;
      [|by rewrite andb_false_r in Ha].
    rewrite andb_true_r in Ha. apply negb_true_iff in Ha.
    destruct t; simpl;
      repeat (progress
                (rewrite ?Ef, ?Ha, ?lookup_insert_eq, ?str_app_nil_r; simpl));
      repeat split; done.
  - unfold_stream. rewrite andb_true_r in Ha. apply negb_true_iff in Ha.
    destruct t; simpl;
      repeat (progress (rewrite ?Ha, ?lookup_insert_eq, ?str_app_nil_r; simpl));
      repeat split; done.
Qed.

Lemma render_app (st : ios) (a b : list Token) :
  render st (a ++ b)
  = ((render st a).1 ++ (render (render st a).2 b).1,
     (render (render st a).2 b).2).
Proof.
  revert st. induction a as [|t a IH]; intros st; simpl.
  - by destruct (render st b).
  - destruct (render_token st t) as [x st1]. rewrite IH.
    destruct (render st1 a) as [y st2]. simpl.
    destruct (render st2 b) as [z st3]. simpl. by rewrite str_app_assoc.
Qed.

Lemma ostream_shl_all_extends (r : stream_ref) (ts : list Token) (w : World) :
  accepting r w = true →
  extends r (render (get_ios r w) ts).1 (render (get_ios r w) ts).2
    w (ostream_shl_all r ts w).2.
Proof.
  revert w. induction ts as [|t ts IH]; intros w Ha; simpl.
  - unfold extends. rewrite str_app_nil_r. auto using same_env_refl.
  - pose proof (ostream_shl_extends r t w Ha) as H1.
    unfold mbind, M_bind.
    destruct (ostream_shl r t w) as [[] w1] eqn:E1. simpl in H1.
    destruct (render_token (get_ios r w) t) as [a st1] eqn:Et. simpl in H1.
    assert (Ha1 : accepting r w1 = true) by apply H1.
    specialize (IH w1 Ha1).
    assert (Hst : get_ios r w1 = st1) by apply H1. rewrite Hst in IH.
    destruct (render st1 ts) as [b st2]. simpl in *.
    eapply extends_trans; eauto.
Qed.

Lemma ostream_shl_all_app (r : stream_ref) (a b : list Token) (w : World) :
  ostream_shl_all r (a ++ b) w
  = (ostream_shl_all r a;; ostream_shl_all r b) w.
Proof.
  revert w. induction a as [|t a IH]; intros w; simpl.
  - unfold mbind, M_bind, mret, M_ret. done.
  - unfold mbind, M_bind in *. destruct (ostream_shl r t w) as [u w1].
    apply IH.
Qed.

(** Writing to a stream does not read the clock or open files, and an
    event recorded before a write could as well be recorded after it. *)
Lemma ostream_shl_add_event (r : stream_ref) (t : Token) (e : Event)
    (w : World) :
  ostream_shl r t (add_event e w) = (tt, add_event e (ostream_shl r t w).2).
Proof.
  destruct r as [l| |id]; destruct t; unfold_stream; simpl;
    repeat match goal with
    | |- context [if ios_fail ?x then _ else _] => destruct (ios_fail x)
    | |- context [match of_path ?x with _ => _ end] => destruct (of_path x)
    | |- context [match text_field ?a ?b with _ => _ end] =>
        destruct (text_field a b)
    | |- context [match long_field ?a ?b with _ => _ end] =>
        destruct (long_field a b)
    | |- context [match unsigned_field ?a ?b with _ => _ end] =>
        destruct (unsigned_field a b)
    end; reflexivity.
Qed.

Lemma ostream_shl_all_add_event (r : stream_ref) (ts : list Token)
    (e : Event) (w : World) :
  ostream_shl_all r ts (add_event e w)
  = (tt, add_event e (ostream_shl_all r ts w).2).
Proof.
  revert w. induction ts as [|t ts IH]; intros w; simpl; [done|].
  unfold mbind, M_bind. rewrite ostream_shl_add_event.
  destruct (ostream_shl r t w) as [u w1]. simpl. apply IH.
Qed.

Lemma ostream_shl_clock (r : stream_ref) (t : Token) (w : World) :
  clock (ostream_shl r t w).2 = clock w.
Proof.
  destruct r as [l| |id]; destruct t; unfold_stream; simpl;
    repeat match goal with
    | |- context [if ios_fail ?x then _ else _] => destruct (ios_fail x)
    | |- context [match of_path ?x with _ => _ end] => destruct (of_path x)
    | |- context [match text_field ?a ?b with _ => _ end] =>
        destruct (text_field a b)
    | |- context [match long_field ?a ?b with _ => _ end] =>
        destruct (long_field a b)
    | |- context [match unsigned_field ?a ?b with _ => _ end] =>
        destruct (unsigned_field a b)
    end; reflexivity.
Qed.

Lemma ostream_shl_trace (r : stream_ref) (t : Token) (w : World) :
  trace (ostream_shl r t w).2 = trace w.
Proof.
  destruct r as [l| |id]; destruct t; unfold_stream; simpl;
    repeat match goal with
    | |- context [if ios_fail ?x then _ else _] => destruct (ios_fail x)
    | |- context [match of_path ?x with _ => _ end] => destruct (of_path x)
    | |- context [match text_field ?a ?b with _ => _ end] =>
        destruct (text_field a b)
    | |- context [match long_field ?a ?b with _ => _ end] =>
        destruct (long_field a b)
    | |- context [match unsigned_field ?a ?b with _ => _ end] =>
        destruct (unsigned_field a b)
    end; reflexivity.
Qed.

Lemma bind_run {A B} (m : M A) (f : A → M B) (w : World) :
  (m ≫= f) w = f (m w).1 (m w).2.
Proof. unfold mbind, M_bind. by destruct (m w). Qed.

Lemma ostream_shl_all_nil_snd (r : stream_ref) (w : World) :
  (ostream_shl_all r [] w).2 = w.
Proof. reflexivity. Qed.

Lemma ostream_shl_all_cons_snd (r : stream_ref) (t : Token)
    (ts : list Token) (w : World) :
  (ostream_shl_all r (t :: ts) w).2
  = (ostream_shl_all r ts (ostream_shl r t w).2).2.
Proof. simpl. by rewrite bind_run. Qed.

Lemma ostream_shl_all_app_snd (r : stream_ref) (a b : list Token)
    (w : World) :
  (ostream_shl_all r (a ++ b) w).2
  = (ostream_shl_all r b (ostream_shl_all r a w).2).2.
Proof. by rewrite ostream_shl_all_app, bind_run. Qed.

Lemma ostream_shl_all_clock (r : stream_ref) (ts : list Token) (w : World) :
  clock (ostream_shl_all r ts w).2 = clock w.
Proof.
  revert w. induction ts as [|t ts IH]; intros w; [done|].
  by rewrite ostream_shl_all_cons_snd, IH, ostream_shl_clock.
Qed.

Lemma ostream_shl_all_trace (r : stream_ref) (ts : list Token) (w : World) :
  trace (ostream_shl_all r ts w).2 = trace w.
Proof.
  revert w. induction ts as [|t ts IH]; intros w; [done|].
  by rewrite ostream_shl_all_cons_snd, IH, ostream_shl_trace.
Qed.

(** ** Statements *)

Section LoggerFacts.

Context (cfg : SimpleLoggerConfig).

Lemma shl_run (this : SimpleLogger) (t : Token) (w : World) :
  shl cfg this t w
  = (this, if is_active cfg (Level this)
           then (ostream_shl (m_stream this) t w).2 else w).
Proof.
  unfold shl, mbind, M_bind, mret, M_ret.
  destruct (is_active cfg (Level this)); [|done].
  by destruct (ostream_shl (m_stream this) t w).
Qed.

Lemma shl_all_run (this : SimpleLogger) (ts : list Token) (w : World) :
  shl_all cfg this ts w
  = (this, if is_active cfg (Level this)
           then (ostream_shl_all (m_stream this) ts w).2 else w).
Proof.
  revert w. induction ts as [|t ts IH]; intros w; simpl.
  - by destruct (is_active cfg (Level this)).
  - unfold mbind, M_bind. rewrite shl_run, IH.
    destruct (is_active cfg (Level this)); [|done].
    by destruct (ostream_shl (m_stream this) t w).
Qed.

Lemma print_time_run (this : SimpleLogger) (w : World) :
  is_active cfg (Level this) = true →
  print_time cfg this w
  = (tt, add_event EvNow
           (ostream_shl_all (m_stream this) (time_tokens cfg (clock w)) w).2).
Proof.
  intros Ha. unfold print_time. rewrite bind_run. cbv beta.
  rewrite bind_run, shl_all_run, Ha.
  unfold high_resolution_clock_now. cbn [fst snd].
  fold (time_tokens cfg (clock w)).
  by rewrite ostream_shl_all_add_event.
Qed.

Lemma SimpleLogger_new_inactive (level : LogLevel) (stream : stream_ref)
    (location : source_location) (w : World) :
  is_active cfg level = false →
  SimpleLogger_new cfg level stream location w
  = ({| Level := level; m_stream := NullStream level |}, w).
Proof. intros Ha. unfold SimpleLogger_new. by rewrite Ha. Qed.

(** The constructor of an active statement reads the clock once and
    streams the preamble to the stream it was given. *)
Lemma SimpleLogger_new_active (level : LogLevel) (stream : stream_ref)
    (location : source_location) (w : World) :
  is_active cfg level = true →
  SimpleLogger_new cfg level stream location w
  = ({| Level := level; m_stream := stream |},
     add_event EvNow
       (ostream_shl_all stream
          (preamble_tokens cfg level (clock w) location) w).2).
Proof.
  intros Ha. unfold SimpleLogger_new. rewrite Ha.
  repeat (rewrite bind_run; cbv beta).
  rewrite print_file_name_trimmed, bind_run.
  rewrite !shl_run, !shl_all_run, !print_time_run by done.
  cbn [Level m_stream fst snd]. rewrite Ha.
  unfold mret, M_ret. f_equal.
  repeat (progress
            (rewrite ?ostream_shl_add_event, ?ostream_shl_all_add_event;
             cbn [fst snd])).
  f_equal. rewrite ostream_shl_clock. unfold preamble_tokens.
  by rewrite !ostream_shl_all_app_snd, !ostream_shl_all_cons_snd,
    !ostream_shl_all_nil_snd.
Qed.

Lemma SimpleLogger_delete_run (this : SimpleLogger) (w : World) :
  SimpleLogger_delete cfg this w
  = (tt, if is_active cfg (Level this) then (endl (m_stream this) w).2 else w).
Proof.
  unfold SimpleLogger_delete. destruct (is_active cfg (Level this)); [|done].
  by destruct (endl (m_stream this) w) as [[] ?].
Qed.

End LoggerFacts.

(** ** Fields *)

Lemma pad_field_width_0 (fl : fmtflags) (c : ascii) (p b : string) :
  pad_field fl c 0 p b = p ++ b.
Proof.
  unfold pad_field. destruct (ff_adjust fl); simpl.
  - apply pad_width_0.
  - by rewrite str_app_nil_r.
  - reflexivity.
Qed.

Lemma count_nl_pad_field (fl : fmtflags) (c : ascii) (w : nat)
    (p b : string) :
  Ascii.eqb c newline = false → count_nl p = 0 → count_nl b = 0 →
  count_nl (pad_field fl c w p b) = 0.
Proof.
  intros Hc Hp Hb. unfold pad_field.
  destruct (ff_adjust fl).
  - apply count_nl_pad; [done|]. by rewrite count_nl_app, Hp, Hb.
  - by rewrite !count_nl_app, count_nl_fill, Hp, Hb.
  - by rewrite !count_nl_app, count_nl_fill, Hp, Hb.
Qed.

Lemma digit_char_not_nl (upper : bool) (d : N) :
  Ascii.eqb (digit_char upper d) newline = false.
Proof.
  destruct d as [|p]; [done|].
  do 5 (try destruct p as [p|p|]); by destruct upper.
Qed.

Lemma count_nl_digits_from (fuel : nat) (base : N) (upper : bool) (n : N)
    (acc : string) :
  count_nl acc = 0 → count_nl (digits_from fuel base upper n acc) = 0.
Proof.
  revert n acc. induction fuel as [|fuel IH]; intros n acc Ha; [done|].
  simpl. assert (H : count_nl (String (digit_char upper (n mod base)) acc) = 0).
  { simpl. by rewrite digit_char_not_nl, Ha. }
  destruct (n / base =? 0)%N; [done|]. by apply IH.
Qed.

Lemma count_nl_format_unsigned (fl : fmtflags) (n : N) :
  count_nl (format_unsigned fl n).1 = 0 ∧
  count_nl (format_unsigned fl n).2 = 0.
Proof.
  unfold format_unsigned, digits.
  destruct (ff_base fl); cbn [fst snd].
  - split; [done|]. apply count_nl_decimal.
  - split; [|by apply count_nl_digits_from].
    by destruct (ff_showbase fl && negb (n =? 0)%N), (ff_uppercase fl).
  - split; [done|]. rewrite count_nl_app, count_nl_digits_from by done.
    by destruct (ff_showbase fl && negb (n =? 0)%N).
Qed.

Lemma count_nl_format_long (fl : fmtflags) (z : Z) :
  count_nl (format_long fl z).1 = 0 ∧ count_nl (format_long fl z).2 = 0.
Proof.
  unfold format_long. destruct (ff_base fl) eqn:Eb.
  - destruct (z <? 0)%Z; cbn [fst snd].
    + split; [done|]. apply count_nl_decimal.
    + split; [by destruct (ff_showpos fl)|]. apply count_nl_decimal.
  - apply count_nl_format_unsigned.
  - apply count_nl_format_unsigned.
Qed.

Lemma count_nl_text_field (st : ios) (s : string) :
  Ascii.eqb (ios_fill st) newline = false → count_nl s = 0 →
  count_nl (text_field st s) = 0.
Proof. intros. by apply count_nl_pad_field. Qed.

Lemma count_nl_long_field (st : ios) (z : Z) :
  Ascii.eqb (ios_fill st) newline = false → count_nl (long_field st z) = 0.
Proof.
  intros. apply count_nl_pad_field; [done|apply count_nl_format_long..].
Qed.

Lemma count_nl_unsigned_field (st : ios) (n : N) :
  Ascii.eqb (ios_fill st) newline = false →
  count_nl (unsigned_field st n) = 0.
Proof.
  intros. apply count_nl_pad_field; [done|apply count_nl_format_unsigned..].
Qed.

(** Under the flags of an untouched stream a field is the decimal text
    with the fill characters in front. *)
Lemma default_format_spec (fl : fmtflags) :
  default_format fl = true →
  ff_base fl = Dec ∧ ff_adjust fl = AdjRight ∧ ff_showpos fl = false.
Proof.
  unfold default_format.
  destruct (ff_base fl), (ff_adjust fl), (ff_showpos fl); done.
Qed.

Lemma format_long_default (fl : fmtflags) (z : Z) :
  default_format fl = true →
  (format_long fl z).1 ++ (format_long fl z).2 = decimal z.
Proof.
  intros H. apply default_format_spec in H as (Hb & _ & Hp).
  unfold format_long. rewrite Hb, Hp. by destruct z.
Qed.

Lemma format_unsigned_default (fl : fmtflags) (n : N) :
  default_format fl = true →
  (format_unsigned fl n).1 ++ (format_unsigned fl n).2
  = decimal (Z.of_N n).
Proof.
  intros H. apply default_format_spec in H as (Hb & _ & _).
  unfold format_unsigned. by rewrite Hb.
Qed.

Lemma pad_field_default (fl : fmtflags) (c : ascii) (w : nat)
    (p b : string) :
  default_format fl = true → pad_field fl c w p b = pad c w (p ++ b).
Proof.
  intros H. apply default_format_spec in H as (_ & Ha & _).
  unfold pad_field. by rewrite Ha.
Qed.

Lemma zero_field_default (fl : fmtflags) (w : nat) (z : Z) :
  default_format fl = true → zero_field fl w z = pad "0" w (decimal z).
Proof.
  intros H. unfold zero_field.
  by rewrite pad_field_default, format_long_default.
Qed.

Lemma text_field_default (st : ios) (s : string) :
  default_format (ios_flags st) = true →
  text_field st s = pad (ios_fill st) (ios_width st) s.
Proof. intros H. unfold text_field. by rewrite pad_field_default. Qed.

Lemma long_field_default (st : ios) (z : Z) :
  default_format (ios_flags st) = true →
  long_field st z = pad (ios_fill st) (ios_width st) (decimal z).
Proof.
  intros H. unfold long_field.
  by rewrite pad_field_default, format_long_default.
Qed.

Lemma timestamp_with_default (fl : fmtflags) (cfg : SimpleLoggerConfig)
    (t : Z) :
  default_format fl = true → timestamp_with fl cfg t = timestamp cfg t.
Proof.
  intros H. unfold timestamp_with, timestamp.
  by rewrite !zero_field_default.
Qed.

Lemma text_field_after_insert (st : ios) (s : string) :
  text_field (ios_set_width 0 st) s = s.
Proof. unfold text_field. simpl. apply pad_field_width_0. Qed.

(** ** Rendering *)

Lemma render_time_tokens (cfg : SimpleLoggerConfig) (t : Z) (st : ios) :
  render st (time_tokens cfg t)
  = (timestamp_with (ios_flags st) cfg t, ios_after_time st).
Proof.
  unfold time_tokens, timestamp_with.
  cbn [render render_token].
  rewrite !text_field_after_insert.
  unfold long_field, zero_field.
  cbn [ios_flags ios_fill ios_width ios_fail ios_set_width ios_set_fill].
  rewrite !str_app_nil_r. reflexivity.
Qed.

(** The text of a line in front of its tokens, for a stream in any
    state. *)
Lemma render_preamble_with (cfg : SimpleLoggerConfig) (level : LogLevel)
    (t : Z) (location : source_location) (toks : list Token) (st : ios) :
  (render st (preamble_tokens cfg level t location ++ toks)).1
  = text_field st "[" ++ timestamp_with (ios_flags st) cfg t ++ "][" ++
    logLevelToString level ++ "][" ++ trimmed (file_name location) ++ ":" ++
    ((format_unsigned (ios_flags st) (line location)).1 ++
     (format_unsigned (ios_flags st) (line location)).2) ++ "][" ++
    function_name location ++ "] " ++ (render (ios_after_time st) toks).1.
Proof.
  unfold preamble_tokens.
  rewrite <- !(assoc_L (++) (A:=list Token)).
  rewrite (render_app st [TStr "["]). cbn [fst snd].
  rewrite (render_app _ (time_tokens cfg t)), render_time_tokens.
  cbn [fst snd].
  match goal with |- context [render ?s (?l ++ toks)] =>
    rewrite (render_app s l toks) end.
  cbn [render render_token fst snd].
  unfold unsigned_field.
  cbn [ios_flags ios_fill ios_width ios_fail ios_set_width ios_after_time].
  rewrite text_field_after_insert, pad_field_width_0.
  repeat match goal with |- context [text_field ?s ?x] =>
    lazymatch s with
    | st => fail
    | _ => change (text_field s x) with (text_field (ios_set_width 0 s) x);
           rewrite (text_field_after_insert s x)
    end end.
  match goal with |- context [render ?s toks] =>
    change s with (ios_after_time st) end.
  rewrite !str_app_nil_r, !str_app_assoc. reflexivity.
Qed.

(** The same under the flags of an untouched stream. *)
Lemma render_preamble (cfg : SimpleLoggerConfig) (level : LogLevel) (t : Z)
    (location : source_location) (toks : list Token) (st : ios) :
  default_format (ios_flags st) = true →
  (render st (preamble_tokens cfg level t location ++ toks)).1
  = pad (ios_fill st) (ios_width st) "[" ++ timestamp cfg t ++ "][" ++
    logLevelToString level ++ "][" ++ trimmed (file_name location) ++ ":" ++
    decimal (Z.of_N (line location)) ++ "][" ++ function_name location ++
    "] " ++ (render (ios_after_time st) toks).1.
Proof.
  intros H.
  by rewrite render_preamble_with, text_field_default,
    timestamp_with_default, format_unsigned_default.
Qed.

Lemma render_fill_nl_free (st : ios) (ts : list Token) :
  Ascii.eqb (ios_fill st) newline = false →
  forallb token_nl_free ts = true →
  count_nl (render st ts).1 = 0.
Proof.
  revert st. induction ts as [|t ts IH]; intros st Hf Hts; [done|].
  simpl in Hts. apply andb_true_iff in Hts as [Ht Hts]. simpl.
  destruct (render_token st t) as [a st1] eqn:Et.
  assert (Ha : count_nl a = 0 ∧ Ascii.eqb (ios_fill st1) newline = false).
  { destruct t; simpl in Et; injection Et as <- <-; simpl; split; try done.
    - apply count_nl_text_field; [done|]. by apply Nat.eqb_eq.
    - by apply count_nl_long_field.
    - by apply count_nl_unsigned_field.
    - by apply negb_true_iff. }
  destruct Ha as [Ha Hf1]. specialize (IH st1 Hf1 Hts).
  destruct (render st1 ts) as [b st2]. simpl in *.
  rewrite count_nl_app. lia.
Qed.

Lemma count_nl_timestamp (cfg : SimpleLoggerConfig) (t : Z) :
  count_nl (timestamp cfg t) = 0.
Proof.
  unfold timestamp. rewrite !count_nl_app.
  rewrite !count_nl_pad by (done || apply count_nl_decimal). done.
Qed.

Lemma count_nl_label (level : LogLevel) :
  count_nl (logLevelToString level) = 0.
Proof. unfold logLevelToString. by repeat case_match. Qed.

Lemma count_nl_trimmed (path : string) :
  count_nl path = 0 → count_nl (trimmed path) = 0.
Proof.
  unfold trimmed. destruct (strrchr path "/") as [p|] eqn:E; [|done].
  destruct (strrchr_some _ _ _ E) as (pre & -> & _).
  rewrite count_nl_app. simpl. lia.
Qed.

(** The text of one line of the log: everything an active statement
    writes before the terminator, on a stream in state [st]. *)
Lemma count_nl_preamble (cfg : SimpleLoggerConfig) (level : LogLevel) (t : Z)
    (location : source_location) (toks : list Token) (st : ios) :
  Ascii.eqb (ios_fill st) newline = false →
  count_nl (file_name location) = 0 →
  count_nl (function_name location) = 0 →
  forallb token_nl_free toks = true →
  count_nl (render st (preamble_tokens cfg level t location ++ toks)).1 = 0.
Proof.
  intros Hf Hfile Hfun Htoks. apply render_fill_nl_free; [done|].
  rewrite List.forallb_app, Htoks, andb_true_r.
  unfold preamble_tokens, time_tokens. cbn [forallb token_nl_free app].
  by rewrite count_nl_label, count_nl_trimmed, Hfun.
Qed.

(** ** Events and the destructor *)

Lemma bytes_of_add_event (r : stream_ref) (e : Event) (w : World) :
  bytes_of r (add_event e w) = bytes_of r w.
Proof. by destruct r. Qed.

Lemma get_ios_add_event (r : stream_ref) (e : Event) (w : World) :
  get_ios r (add_event e w) = get_ios r w.
Proof. by destruct r. Qed.

Lemma accepting_add_event (r : stream_ref) (e : Event) (w : World) :
  accepting r (add_event e w) = accepting r w.
Proof. by destruct r. Qed.

Lemma endl_extends (r : stream_ref) (w : World) :
  accepting r w = true →
  extends r endl_text (get_ios r w) w (endl r w).2.
Proof.
  intros Ha. unfold endl. destruct r as [l| |id].
  - unfold accepting in Ha. by rewrite andb_false_r in Ha.
  - unfold_stream.
    destruct (logFile w) as [st [p|]] eqn:Ef; simpl in *;
      [|by rewrite andb_false_r in Ha].
    rewrite andb_true_r in Ha. apply negb_true_iff in Ha.
    repeat (progress (rewrite ?Ef, ?Ha, ?lookup_insert_eq; simpl)).
    repeat split; done.
  - unfold_stream. rewrite andb_true_r in Ha. apply negb_true_iff in Ha.
    repeat (progress (rewrite ?Ha, ?lookup_insert_eq; simpl)).
    repeat split; done.
Qed.

(** The file on disk holds what the open log file has taken, once
    something has been written. *)
Lemma endl_LogFile_disk (w : World) (p : string) :
  accepting LogFile w = true → of_path (logFile w) = Some p →
  disk (endl LogFile w).2 !! p = Some (bytes_of LogFile w ++ endl_text).
Proof.
  intros Ha Hp. unfold endl. unfold_stream. rewrite Hp in *.
  rewrite andb_true_r in Ha. apply negb_true_iff in Ha. rewrite Ha. simpl.
  by rewrite lookup_insert_eq.
Qed.

Section StatementFacts.

Context (cfg : SimpleLoggerConfig).

(** The only effect of a statement below the threshold is the evaluation
    of the expression that names its stream. *)
Lemma SIMPLE_LOGGER_LOG_inactive (level : LogLevel) (stream : M stream_ref)
    (location : source_location) (toks : list Token) (w : World) :
  is_active cfg level = false →
  SIMPLE_LOGGER_LOG cfg level stream location toks w = (tt, (stream w).2).
Proof.
  intros Ha. unfold SIMPLE_LOGGER_LOG.
  repeat (rewrite bind_run; cbv beta).
  rewrite SimpleLogger_new_inactive by done. cbn [fst snd].
  rewrite shl_all_run, SimpleLogger_delete_run. cbn [fst snd Level].
  by rewrite Ha.
Qed.

Lemma SIMPLE_LOGGER_LOG_active (level : LogLevel) (stream : M stream_ref)
    (location : source_location) (toks : list Token) (w : World) :
  is_active cfg level = true →
  SIMPLE_LOGGER_LOG cfg level stream location toks w
  = (tt, (endl (stream w).1
            (add_event EvNow
               (ostream_shl_all (stream w).1
                  (preamble_tokens cfg level (clock (stream w).2) location
                   ++ toks) (stream w).2).2)).2).
Proof.
  intros Ha. unfold SIMPLE_LOGGER_LOG.
  repeat (rewrite bind_run; cbv beta).
  rewrite SimpleLogger_new_active by done. cbn [fst snd].
  rewrite shl_all_run, SimpleLogger_delete_run. cbn [fst snd Level m_stream].
  rewrite Ha, ostream_shl_all_add_event. cbn [fst snd].
  by rewrite ostream_shl_all_app_snd.
Qed.

(** What an active statement writes to a destination that takes bytes. *)
Lemma SIMPLE_LOGGER_LOG_extends (level : LogLevel) (stream : M stream_ref)
    (location : source_location) (toks : list Token) (w : World) :
  is_active cfg level = true →
  accepting (stream w).1 (stream w).2 = true →
  extends (stream w).1
    ((render (get_ios (stream w).1 (stream w).2)
        (preamble_tokens cfg level (clock (stream w).2) location ++ toks)).1
     ++ endl_text)
    (render (get_ios (stream w).1 (stream w).2)
        (preamble_tokens cfg level (clock (stream w).2) location ++ toks)).2
    (stream w).2
    (SIMPLE_LOGGER_LOG cfg level stream location toks w).2.
Proof.
  intros Hact Ha. rewrite SIMPLE_LOGGER_LOG_active by done. cbn [snd].
  destruct (stream w) as [r w1]. cbn [fst snd] in *.
  set (ts := (preamble_tokens cfg level (clock w1) location ++ toks)%list).
  pose proof (ostream_shl_all_extends r ts w1 Ha) as H1.
  set (w2 := (ostream_shl_all r ts w1).2) in *.
  destruct H1 as (Hb & Hs & Ha2 & He).
  assert (Ha3 : accepting r (add_event EvNow w2) = true)
    by (by rewrite accepting_add_event).
  pose proof (endl_extends r _ Ha3) as (Hb' & Hs' & Ha' & He').
  rewrite bytes_of_add_event in Hb'. rewrite get_ios_add_event in Hs'.
  split; [by rewrite Hb', Hb, str_app_assoc|].
  split; [by rewrite Hs'|]. split; [done|].
  eapply same_env_trans; [exact He|].
  destruct He' as (?&?&?&?). by repeat split.
Qed.

(** Before its destructor runs, an active statement has written the
    rendering of its preamble and tokens, and nothing else. *)
Lemma SimpleLogger_before_delete (level : LogLevel) (r : stream_ref)
    (location : source_location) (toks : list Token) (w : World) :
  is_active cfg level = true →
  accepting r w = true →
  bytes_of r ((logger ← SimpleLogger_new cfg level r location;
               shl_all cfg logger toks) w).2
  = bytes_of r w ++
    (render (get_ios r w)
       (preamble_tokens cfg level (clock w) location ++ toks)).1.
Proof.
  intros Hact Ha. rewrite bind_run, SimpleLogger_new_active by done.
  cbn [fst snd]. rewrite shl_all_run. cbn [Level m_stream snd].
  rewrite Hact, ostream_shl_all_add_event. cbn [snd].
  rewrite bytes_of_add_event, <- ostream_shl_all_app_snd.
  by destruct (ostream_shl_all_extends r
       (preamble_tokens cfg level (clock w) location ++ toks) w Ha)
    as (-> & _).
Qed.

(** An active statement reads the clock once and opens nothing beyond
    what the expression that names its stream opens. *)
Lemma SIMPLE_LOGGER_LOG_active_trace (level : LogLevel)
    (stream : M stream_ref) (location : source_location)
    (toks : list Token) (w : World) :
  is_active cfg level = true →
  trace (SIMPLE_LOGGER_LOG cfg level stream location toks w).2
  = (trace (stream w).2 ++ [EvNow])%list.
Proof.
  intros Hact. rewrite SIMPLE_LOGGER_LOG_active by done. cbn [snd].
  unfold endl. rewrite <- (ostream_shl_all_trace (stream w).1
    (preamble_tokens cfg level (clock (stream w).2) location ++ toks)
    (stream w).2).
  set (w2 := (ostream_shl_all _ _ _).2).
  destruct (stream w).1 as [l| |id]; unfold_stream; simpl;
    repeat match goal with
    | |- context [if ios_fail ?x then _ else _] => destruct (ios_fail x)
    | |- context [match of_path ?x with _ => _ end] => destruct (of_path x)
    end; reflexivity.
Qed.

End StatementFacts.

(** ** The shared log file *)

Lemma count_events_snoc (p : Event → bool) (evs : list Event) (e : Event) :
  count_events p (evs ++ [e])
  = (count_events p evs + if p e then 1 else 0)%nat.
Proof.
  unfold count_events. rewrite List.filter_app, List.length_app. simpl.
  by destruct (p e).
Qed.

Lemma getLogFile_open (w : World) :
  is_open (logFile w) = true → getLogFile w = (LogFile, w).
Proof.
  intros H. unfold getLogFile. rewrite bind_run. cbv beta.
  unfold gets at 1. cbn [fst snd]. rewrite H. cbn [negb].
  by rewrite bind_run.
Qed.

Lemma getLogFile_closed (w : World) :
  is_open (logFile w) = false →
  getLogFile w = (LogFile, set_logFile (ofstream_open (logFileName w) w).1
                             (ofstream_open (logFileName w) w).2).
Proof.
  intros H. unfold getLogFile. rewrite bind_run. cbv beta.
  unfold gets at 1. cbn [fst snd]. rewrite H. cbn [negb].
  rewrite !bind_run. by cbv beta.
Qed.

Lemma getLogFile_times_open (n : nat) (w : World) :
  is_open (logFile w) = true →
  getLogFile_times n w = (replicate n LogFile, w).
Proof.
  intros H. induction n as [|n IH]; [done|].
  simpl. rewrite bind_run, getLogFile_open by done. cbn [fst snd].
  by rewrite bind_run, IH.
Qed.

Lemma getLogFile_times_denied (n : nat) (w : World) :
  is_open (logFile w) = false → logFileName w ∈ denied w →
  (getLogFile_times n w).1 = replicate n LogFile ∧
  trace (getLogFile_times n w).2
  = (trace w ++ replicate n (EvOpen (logFileName w) false))%list ∧
  is_open (logFile (getLogFile_times n w).2) = false ∧
  disk (getLogFile_times n w).2 = disk w.
Proof.
  revert w. induction n as [|n IH]; intros w Hc Hd.
  - simpl. by rewrite (right_id_L [] (++)).
  - simpl. rewrite bind_run, getLogFile_closed by done. cbn [fst snd].
    rewrite bind_run. cbv beta. unfold mret, M_ret. cbn [fst snd].
    unfold ofstream_open. rewrite bool_decide_true by done. cbn [fst snd].
    set (w1 := set_logFile _ _).
    destruct (IH w1) as (Hr & Ht & Ho & Hdk); [done..|].
    rewrite Hr, Ht, Ho, Hdk. subst w1. simpl.
    by rewrite <- (assoc_L (++) (A:=list Event)).
Qed.

(** ** Failed destinations *)

Lemma same_data_refl (w : World) : same_data w w.
Proof. by repeat split. Qed.

Lemma same_data_trans (w1 w2 w3 : World) :
  same_data w1 w2 → same_data w2 w3 → same_data w1 w3.
Proof.
  intros (Hd & Hb & Ht & Hp & Hn & Hx) (Hd' & Hb' & Ht' & Hp' & Hn' & Hx').
  repeat split; congruence.
Qed.

(** A change of formatting state changes no data. *)
Lemma set_ios_same_data (r : stream_ref) (st : ios) (w : World) :
  same_data w (set_ios r st w).
Proof.
  repeat split; try (by destruct r).
  intros r'. destruct r as [l| |id], r' as [l'| |id']; try done. simpl.
  destruct (decide (id' = id)) as [->|Hne].
  - by rewrite lookup_insert_eq.
  - by rewrite lookup_insert_ne.
Qed.

Lemma get_ios_set_ios (r : stream_ref) (st : ios) (w : World) :
  get_ios r (set_ios r st w) = st.
Proof. destruct r as [l| |id]; simpl; by rewrite ?lookup_insert_eq. Qed.

(** On a failed stream a token changes formatting state at most. *)
Lemma ostream_shl_failed (r : stream_ref) (t : Token) (w : World) :
  ios_fail (get_ios r w) = true →
  same_data w (ostream_shl r t w).2 ∧
  ios_fail (get_ios r (ostream_shl r t w).2) = true.
Proof.
  intros Hf. destruct t; unfold ostream_shl, ostream_insert, modify;
    rewrite ?Hf; cbn [snd];
    auto using same_data_refl, set_ios_same_data;
    (split; [apply set_ios_same_data | by rewrite get_ios_set_ios]).
Qed.

Lemma ostream_shl_all_failed (r : stream_ref) (ts : list Token) (w : World) :
  ios_fail (get_ios r w) = true →
  same_data w (ostream_shl_all r ts w).2 ∧
  ios_fail (get_ios r (ostream_shl_all r ts w).2) = true.
Proof.
  revert w. induction ts as [|t ts IH]; intros w Hf.
  - auto using same_data_refl.
  - rewrite ostream_shl_all_cons_snd.
    destruct (ostream_shl_failed r t w Hf) as (H1 & Hf1).
    destruct (IH _ Hf1) as (H2 & Hf2).
    eauto using same_data_trans.
Qed.

Lemma endl_failed (r : stream_ref) (w : World) :
  ios_fail (get_ios r w) = true → endl r w = (tt, w).
Proof. intros Hf. unfold endl, ostream_put. by rewrite Hf. Qed.

Lemma SIMPLE_LOGGER_LOG_failed (cfg : SimpleLoggerConfig) (level : LogLevel)
    (stream : M stream_ref)
    (location : source_location) (toks : list Token) (w : World) :
  is_active cfg level = true →
  ios_fail (get_ios (stream w).1 (stream w).2) = true →
  ∃ w2, same_data (stream w).2 w2 ∧
        ios_fail (get_ios (stream w).1 w2) = true ∧
        (SIMPLE_LOGGER_LOG cfg level stream location toks w).2
        = add_event EvNow w2.
Proof.
  intros Hact Hf. rewrite SIMPLE_LOGGER_LOG_active by done. cbn [snd].
  destruct (ostream_shl_all_failed (stream w).1
    (preamble_tokens cfg level (clock (stream w).2) location ++ toks)
    (stream w).2 Hf) as (Hd & Hf2).
  eexists. split; [exact Hd|]. split; [exact Hf2|].
  rewrite endl_failed; [done|]. by rewrite get_ios_add_event.
Qed.

(** ** The claims *)

(** C7. The label function is total: the four enumerators map to their
    names, and every other value of the underlying type maps to
    ["Unknown"].  Being a function of the level alone, it has no effect
    and no error case. *)
Theorem logLevelToString_total :
  logLevelToString LogLevel.Debug = "Debug" ∧
  logLevelToString LogLevel.Info = "Info" ∧
  logLevelToString LogLevel.Warning = "Warning" ∧
  logLevelToString LogLevel.Error = "Error" ∧
  ∀ level : LogLevel,
    level ≠ LogLevel.Debug → level ≠ LogLevel.Info →
    level ≠ LogLevel.Warning → level ≠ LogLevel.Error →
    logLevelToString level = "Unknown".
Proof.
  repeat split. intros level H0 H1 H2 H3.
  unfold logLevelToString. repeat case_match; done.
Qed.

Lemma logLevelToString_total_witness :
  logLevelToString 200%N = "Unknown".
Proof.
  apply (proj2 (proj2 (proj2 (proj2 logLevelToString_total))));
    unfold LogLevel.Debug, LogLevel.Info, LogLevel.Warning, LogLevel.Error;
    lia.
Defined.

(** C8. What [print_file_name] streams depends on the path alone: it is
    the last of the components the path falls into when cut at the
    separators, and the whole path when there is no separator. *)
Theorem print_file_name_last_component (cfg : SimpleLoggerConfig)
    (this : SimpleLogger) (path : string) (w : World) :
  print_file_name cfg this path w
  = (shl cfg this (TStr (last_component "/" path));; mret tt) w ∧
  (contains "/" path = false → last_component "/" path = path) ∧
  last_component "/" "/a/b/c.cpp" = "c.cpp" ∧
  last_component "/" "c.cpp" = "c.cpp" ∧
  last_component "/" "" = "".
Proof.
  split; [by rewrite print_file_name_trimmed, trimmed_last_component|].
  split; [|done].
  intros H. by rewrite <- trimmed_last_component, trimmed_no_sep.
Qed.

Lemma print_file_name_last_component_witness :
  print_file_name config_ndebug
    {| Level := LogLevel.Error; m_stream := Caller 0 |} "main.cpp"
    (initial_world config_ndebug ∅ ∅ 0)
  = (shl config_ndebug {| Level := LogLevel.Error; m_stream := Caller 0 |}
       (TStr "main.cpp");; mret tt) (initial_world config_ndebug ∅ ∅ 0).
Proof.
  pose proof (print_file_name_last_component config_ndebug
    {| Level := LogLevel.Error; m_stream := Caller 0 |} "main.cpp"
    (initial_world config_ndebug ∅ ∅ 0)) as (H1 & H2 & _).
  rewrite H1. rewrite (H2 eq_refl). reflexivity.
Defined.

(** C10. Only the forward slash separates: a path without one, whatever
    else it contains, is streamed whole; a path with one is streamed from
    just after its last forward slash. *)
Theorem print_file_name_forward_slash_only (cfg : SimpleLoggerConfig)
    (this : SimpleLogger) (path : string) (w : World) :
  (contains "/" path = false →
   print_file_name cfg this path w = (shl cfg this (TStr path);; mret tt) w) ∧
  (contains "/" path = true →
   ∃ pre suf, path = pre ++ String "/" suf ∧ contains "/" suf = false ∧
     print_file_name cfg this path w
     = (shl cfg this (TStr suf);; mret tt) w) ∧
  print_file_name cfg this "a\b\c.cpp" w
  = (shl cfg this (TStr "a\b\c.cpp");; mret tt) w.
Proof.
  rewrite !print_file_name_trimmed. split; [|split; [|done]].
  - intros H. by rewrite trimmed_no_sep.
  - intros H. unfold trimmed.
    destruct (strrchr path "/") as [p|] eqn:E.
    + destruct (strrchr_some _ _ _ E) as (pre & Hp & Hs). eauto.
    + apply strrchr_none in E. congruence.
Qed.

Lemma print_file_name_forward_slash_only_witness :
  ∃ pre suf, "src/util/io.cpp" = pre ++ String "/" suf ∧
    contains "/" suf = false ∧
    print_file_name config_ndebug
      {| Level := LogLevel.Error; m_stream := Caller 0 |} "src/util/io.cpp"
      (initial_world config_ndebug ∅ ∅ 0)
    = (shl config_ndebug {| Level := LogLevel.Error; m_stream := Caller 0 |}
         (TStr suf);; mret tt) (initial_world config_ndebug ∅ ∅ 0).
Proof.
  apply (proj1 (proj2 (print_file_name_forward_slash_only config_ndebug
    {| Level := LogLevel.Error; m_stream := Caller 0 |} "src/util/io.cpp"
    (initial_world config_ndebug ∅ ∅ 0)))).
  reflexivity.
Defined.

(** A null stream has no buffer: whatever is streamed to it changes
    neither the disk, nor the log file, nor any stream of the caller. *)
Lemma ostream_shl_null (l : LogLevel) (t : Token) (w : World) :
  disk (ostream_shl (NullStream l) t w).2 = disk w ∧
  streams (ostream_shl (NullStream l) t w).2 = streams w ∧
  logFile (ostream_shl (NullStream l) t w).2 = logFile w ∧
  trace (ostream_shl (NullStream l) t w).2 = trace w.
Proof.
  destruct t; unfold_stream; simpl;
    repeat match goal with
    | |- context [if ios_fail ?x then _ else _] => destruct (ios_fail x)
    end; done.
Qed.

Lemma ostream_shl_all_null (l : LogLevel) (ts : list Token) (w : World) :
  disk (ostream_shl_all (NullStream l) ts w).2 = disk w ∧
  streams (ostream_shl_all (NullStream l) ts w).2 = streams w ∧
  logFile (ostream_shl_all (NullStream l) ts w).2 = logFile w ∧
  trace (ostream_shl_all (NullStream l) ts w).2 = trace w.
Proof.
  revert w. induction ts as [|t ts IH]; intros w; [done|].
  rewrite ostream_shl_all_cons_snd.
  destruct (IH (ostream_shl (NullStream l) t w).2) as (-> & -> & -> & ->).
  apply ostream_shl_null.
Qed.

Lemma bytes_of_same (r : stream_ref) (w w' : World) :
  disk w' = disk w → streams w' = streams w → logFile w' = logFile w →
  bytes_of r w' = bytes_of r w.
Proof. intros Hd Hs Hf. destruct r; simpl; by rewrite ?Hd, ?Hs, ?Hf. Qed.

(** C6. Whether a statement is active is the comparison of its level with
    the threshold; the statement an append returns is the statement it was
    applied to, so its level, and with it the answer, stays what it was at
    construction; and on an inactive statement construction, append and
    destruction leave the world as it is. *)
Theorem activation_decided_at_construction (cfg : SimpleLoggerConfig)
    (level : LogLevel) (stream : stream_ref) (location : source_location)
    (w : World) :
  let this := (SimpleLogger_new cfg level stream location w).1 in
  (is_active cfg level = true ↔ (logLevel cfg ≤ level)%N) ∧
  Level this = level ∧
  (∀ t w', (shl cfg this t w').1 = this) ∧
  (is_active cfg level = false →
   (SimpleLogger_new cfg level stream location w).2 = w ∧
   ∀ t w', shl cfg this t w' = (this, w') ∧
           SimpleLogger_delete cfg this w' = (tt, w')).
Proof.
  cbv zeta. split; [apply N.leb_le|].
  split.
  { destruct (is_active cfg level) eqn:Ha.
    - by rewrite SimpleLogger_new_active.
    - by rewrite SimpleLogger_new_inactive. }
  split; [intros t w'; by rewrite shl_run|].
  intros Ha. rewrite SimpleLogger_new_inactive by done. cbn [fst snd].
  split; [done|]. intros t w'.
  rewrite shl_run, SimpleLogger_delete_run. cbn [Level]. by rewrite Ha.
Qed.

Lemma activation_decided_at_construction_witness :
  let this := {| Level := LogLevel.Debug;
                 m_stream := NullStream LogLevel.Debug |} in
  let w' := initial_world config_ndebug ∅ ∅ 0 in
  shl config_ndebug this (TStr "x") w' = (this, w') ∧
  SimpleLogger_delete config_ndebug this w' = (tt, w').
Proof.
  pose proof (activation_decided_at_construction config_ndebug
    LogLevel.Debug (Caller 0)
    {| file_name := "a.cpp"; line := 1; function_name := "f" |}
    (initial_world config_ndebug ∅ ∅ 0)) as (_ & _ & _ & H).
  exact (proj2 (H eq_refl) (TStr "x") (initial_world config_ndebug ∅ ∅ 0)).
Defined.

(** C9. On a statement below the threshold [get_stream] is the null
    stream of its level, and whatever the scope then streams through the
    name it was given reaches no destination: the stream the statement was
    constructed with, like every other one, holds the bytes it held. *)
Theorem inactive_get_stream_discards (cfg : SimpleLoggerConfig)
    (level : LogLevel) (stream : stream_ref) (location : source_location)
    (toks : list Token) (w : World) :
  is_active cfg level = false →
  get_stream (SimpleLogger_new cfg level stream location w).1
  = NullStream level ∧
  let w' := (GET_LOG_STREAM cfg level (mret stream) location
               (λ name, ostream_shl_all name toks) w).2 in
  bytes_of stream w' = bytes_of stream w ∧
  (∀ r, bytes_of r w' = bytes_of r w) ∧
  disk w' = disk w ∧ streams w' = streams w ∧ trace w' = trace w.
Proof.
  intros Ha.
  assert (Hrun : GET_LOG_STREAM cfg level (mret stream) location
               (λ name, ostream_shl_all name toks) w
     = (tt, (ostream_shl_all (NullStream level) toks w).2)).
  { unfold GET_LOG_STREAM. rewrite bind_run. cbv beta.
    change ((mret stream : M stream_ref) w) with (stream, w). cbn [fst snd].
    rewrite bind_run, SimpleLogger_new_inactive by done. cbv beta.
    cbn [fst snd get_stream m_stream].
    rewrite bind_run, SimpleLogger_delete_run. cbn [Level]. by rewrite Ha. }
  rewrite Hrun, SimpleLogger_new_inactive by done.
  split; [done|]. cbv zeta. cbn [snd].
  destruct (ostream_shl_all_null level toks w) as (Hd & Hs & Hf & Ht).
  auto using bytes_of_same.
Qed.

Lemma inactive_get_stream_discards_witness :
  bytes_of (Caller 0)
    (GET_LOG_STREAM config_ndebug LogLevel.Debug (mret (Caller 0))
       {| file_name := "a.cpp"; line := 1; function_name := "f" |}
       (λ name, ostream_shl_all name [TStr "lost"; TSetw 4; TLong 7])
       (initial_world config_ndebug ∅ ∅ 0)).2
  = bytes_of (Caller 0) (initial_world config_ndebug ∅ ∅ 0).
Proof.
  exact (proj1 (proj2 (inactive_get_stream_discards config_ndebug
    LogLevel.Debug (Caller 0)
    {| file_name := "a.cpp"; line := 1; function_name := "f" |}
    [TStr "lost"; TSetw 4; TLong 7]
    (initial_world config_ndebug ∅ ∅ 0) eq_refl))).
Defined.

(** C4, as the code has it.  Starting with the log file closed, [n >= 1]
    calls in a row all return the one static stream, and a call made while
    the file is open changes nothing.  When the file can be opened, the
    first call opens (and truncates) it and no later call opens anything:
    the trace grows by exactly one successful open.  When
    it cannot, the stream stays closed and every call attempts the open
    again. *)
Theorem getLogFile_opens_once_when_open_succeeds (n : nat) (w : World) :
  is_open (logFile w) = false → (1 ≤ n)%nat →
  (getLogFile_times n w).1 = replicate n LogFile ∧
  (∀ w', is_open (logFile w') = true → getLogFile w' = (LogFile, w')) ∧
  (logFileName w ∉ denied w →
   trace (getLogFile_times n w).2
   = (trace w ++ [EvOpen (logFileName w) true])%list ∧
   count_events is_open_attempt (trace (getLogFile_times n w).2)
   = (count_events is_open_attempt (trace w) + 1)%nat ∧
   count_events is_truncation (trace (getLogFile_times n w).2)
   = (count_events is_truncation (trace w) + 1)%nat ∧
   of_path (logFile (getLogFile_times n w).2) = Some (logFileName w) ∧
   disk (getLogFile_times n w).2 !! logFileName w = Some "") ∧
  (logFileName w ∈ denied w →
   trace (getLogFile_times n w).2
   = (trace w ++ replicate n (EvOpen (logFileName w) false))%list ∧
   is_open (logFile (getLogFile_times n w).2) = false ∧
   disk (getLogFile_times n w).2 = disk w).
Proof.
  intros Hc Hn.
  destruct (decide (logFileName w ∈ denied w)) as [Hd|Hd].
  - destruct (getLogFile_times_denied n w Hc Hd) as (Hr & Ht & Ho & Hk).
    split; [done|]. split; [apply getLogFile_open|]. split; [done|]. done.
  - destruct n as [|n]; [lia|]. simpl.
    rewrite bind_run, getLogFile_closed by done. cbn [fst snd].
    rewrite bind_run. cbv beta. unfold mret, M_ret. cbn [fst snd].
    unfold ofstream_open. rewrite bool_decide_false by done. cbn [fst snd].
    rewrite getLogFile_times_open by done. cbn [fst snd].
    split; [done|]. split; [apply getLogFile_open|].
    split; [|done]. intros _. simpl.
    by rewrite !count_events_snoc, lookup_insert_eq.
Qed.

Lemma getLogFile_opens_once_when_open_succeeds_witness :
  trace (getLogFile_times 3 (initial_world config_ndebug ∅ ∅ 0)).2
  = [EvOpen "Info.log" true].
Proof.
  pose proof (getLogFile_opens_once_when_open_succeeds 3
    (initial_world config_ndebug ∅ ∅ 0) eq_refl) as H.
  destruct H as (_ & _ & H & _); [lia|].
  destruct H as (H & _); [by vm_compute|]. exact H.
Defined.

(** C4, as stated, fails: with a log file that cannot be opened, two calls
    make two attempts to open it, not one, and the stream is still
    closed. *)
Lemma getLogFile_retries_after_failed_open :
  let w := (getLogFile_times 2
              (initial_world config_ndebug ∅ {["Info.log"]} 0)).2 in
  count_events is_open_attempt (trace w) = 2 ∧
  count_events is_open_attempt (trace w) ≠ 1 ∧
  is_open (logFile w) = false.
Proof. vm_compute. repeat split; congruence. Qed.

(** C1, on the code.  In the [NDEBUG] build the threshold is [Info], so a
    [LOG_DEBUG] statement is below it; run first in the process, it reads
    no clock and writes no byte, but the macro has evaluated
    [getLogFile()] as the argument of the constructor, and that call has
    opened the log file and emptied it. *)
Theorem LOG_DEBUG_below_threshold_opens_log_file :
  let location :=
    {| file_name := "/src/main.cpp"; line := 7; function_name := "main" |} in
  let w0 := initial_world config_ndebug {["Info.log" := "kept"]} ∅ 0 in
  let w1 := (LOG_DEBUG config_ndebug location [TStr "x"] w0).2 in
  is_active config_ndebug LogLevel.Debug = false ∧
  disk w0 !! "Info.log" = Some "kept" ∧
  disk w1 !! "Info.log" = Some "" ∧
  trace w1 = [EvOpen "Info.log" true] ∧
  count_events is_clock_read (trace w1) = 0.
Proof. vm_compute. repeat split. Qed.

(** C2, as stated, fails on two inputs: a token that holds a line
    terminator makes an active statement write two lines, and an active
    statement whose log file could not be opened writes none. *)
Lemma active_statement_not_always_one_line :
  let location :=
    {| file_name := "/src/main.cpp"; line := 7; function_name := "main" |} in
  let two := String "a" (String newline "b") in
  let w1 := (SIMPLE_LOGGER_LOG config_ndebug LogLevel.Info (mret (Caller 0))
               location [TStr two] (initial_world config_ndebug ∅ ∅ 0)).2 in
  let w2 := (LOG_INFO config_ndebug location [TStr "x"]
               (initial_world config_ndebug ∅ {["Info.log"]} 0)).2 in
  is_active config_ndebug LogLevel.Info = true ∧
  count_nl (bytes_of (Caller 0) w1) = 2 ∧
  bytes_of LogFile w2 = "" ∧ disk w2 !! "Info.log" = None.
Proof. vm_compute. repeat split. Qed.

(** C2, as the code has it.  An active statement on a destination that
    takes bytes appends the rendering of its preamble and tokens (this is
    all it has written when its destructor starts), then one line
    terminator, written by the destructor; this holds for every list of
    tokens.  When the fill character of the stream, the call site and
    the tokens hold no line terminator, that terminator is the only one:
    the statement has written exactly one line.  On a destination that has
    failed the statement writes nothing, anywhere. *)
Theorem active_statement_ends_with_one_terminator (cfg : SimpleLoggerConfig)
    (level : LogLevel) (stream : M stream_ref) (location : source_location)
    (toks : list Token) (w : World) :
  is_active cfg level = true →
  let r := (stream w).1 in
  let w1 := (stream w).2 in
  let w' := (SIMPLE_LOGGER_LOG cfg level stream location toks w).2 in
  let text :=
    (render (get_ios r w1)
       (preamble_tokens cfg level (clock w1) location ++ toks)).1 in
  (accepting r w1 = true →
   bytes_of r ((logger ← SimpleLogger_new cfg level r location;
                shl_all cfg logger toks) w1).2
   = bytes_of r w1 ++ text ∧
   bytes_of r w' = bytes_of r w1 ++ text ++ endl_text ∧
   (Ascii.eqb (ios_fill (get_ios r w1)) newline = false →
    count_nl (file_name location) = 0 →
    count_nl (function_name location) = 0 →
    forallb token_nl_free toks = true →
    count_nl text = 0 ∧ count_nl (text ++ endl_text) = 1)) ∧
  (ios_fail (get_ios r w1) = true →
   disk w' = disk w1 ∧ ∀ r', bytes_of r' w' = bytes_of r' w1).
Proof.
  intros Hact. cbv zeta. split.
  - intros Ha.
    destruct (SIMPLE_LOGGER_LOG_extends cfg level stream location toks w
                Hact Ha) as (Hb & _).
    split; [by apply SimpleLogger_before_delete|].
    split; [exact Hb|]. intros Hf Hfile Hfun Htoks.
    rewrite count_nl_app, count_nl_preamble by done. done.
  - intros Hf.
    destruct (SIMPLE_LOGGER_LOG_failed cfg level stream location toks w
                Hact Hf) as (w2 & (Hd & Hb & _) & _ & ->).
    split; [exact Hd|]. intros r'. by rewrite bytes_of_add_event.
Qed.

Lemma active_statement_ends_with_one_terminator_witness :
  let location :=
    {| file_name := "/src/main.cpp"; line := 7; function_name := "main" |} in
  let st := get_ios (Caller 0) (initial_world config_ndebug ∅ ∅ 0) in
  let text :=
    (render st (preamble_tokens config_ndebug LogLevel.Error 0 location
                ++ [TStr "a"; TLong 5])).1 in
  count_nl text = 0 ∧ count_nl (text ++ endl_text) = 1.
Proof.
  pose proof (active_statement_ends_with_one_terminator config_ndebug
    LogLevel.Error (mret (Caller 0))
    {| file_name := "/src/main.cpp"; line := 7; function_name := "main" |}
    [TStr "a"; TLong 5] (initial_world config_ndebug ∅ ∅ 0)
    eq_refl) as (H & _).
  destruct (H eq_refl) as (_ & _ & H').
  exact (H' eq_refl eq_refl eq_refl eq_refl).
Defined.

(** The first call of [getLogFile] when the file can be opened: the log
    file is open under its configured name, empty, in its initial
    formatting state. *)
Lemma getLogFile_first (w : World) :
  is_open (logFile w) = false → logFileName w ∉ denied w →
  (getLogFile w).1 = LogFile ∧
  of_path (logFile (getLogFile w).2) = Some (logFileName w) ∧
  get_ios LogFile (getLogFile w).2 = ios_init ∧
  bytes_of LogFile (getLogFile w).2 = "" ∧
  clock (getLogFile w).2 = clock w.
Proof.
  intros Hc Hd. rewrite getLogFile_closed by done. unfold ofstream_open.
  rewrite bool_decide_false by done. cbn.
  by rewrite lookup_insert_eq.
Qed.

(** An active statement of the [LOG_...] family when the log file is
    already open and in good state: the file on disk is what it was, the
    rendered text, and the terminator. *)
Lemma SIMPLE_LOGGER_LOG_on_open_file (cfg : SimpleLoggerConfig)
    (level : LogLevel) (location : source_location) (toks : list Token)
    (w : World) (p : string) :
  is_active cfg level = true →
  of_path (logFile w) = Some p →
  ios_fail (get_ios LogFile w) = false →
  disk (SIMPLE_LOGGER_LOG cfg level getLogFile location toks w).2 !! p
  = Some (bytes_of LogFile w ++
          (render (get_ios LogFile w)
             (preamble_tokens cfg level (clock w) location ++ toks)).1 ++
          endl_text).
Proof.
  intros Hact Hp Hf.
  assert (Ho : is_open (logFile w) = true) by (unfold is_open; by rewrite Hp).
  assert (Ha : accepting LogFile w = true).
  { unfold accepting. by rewrite Hf, Ho. }
  rewrite SIMPLE_LOGGER_LOG_active by done.
  rewrite getLogFile_open by done. cbn [fst snd].
  destruct (ostream_shl_all_extends LogFile
              (preamble_tokens cfg level (clock w) location ++ toks) w Ha)
    as (Hb & _ & Ha2 & (_ & Hp2 & _)).
  set (w2 := (ostream_shl_all LogFile _ w).2) in *. clearbody w2.
  rewrite (endl_LogFile_disk (add_event EvNow w2) p).
  - by rewrite bytes_of_add_event, Hb, str_app_assoc.
  - by rewrite accepting_add_event.
  - rewrite <- Hp, <- Hp2. reflexivity.
Qed.

(** C3. End to end, with threshold [Info] and a log file that can be
    opened: after a [LOG_DEBUG] statement (whatever its tokens) and a
    [LOG_WARNING] statement with the token ["disk full"], the log file
    holds one text followed by the line terminator; the text holds no
    terminator, holds ["[Warning]"], and ends with ["disk full"].  The call
    site of the second statement is taken to have no line terminator in
    its file and function names. *)
Theorem debug_then_warning_writes_one_line (tz : Z)
    (d : gmap string string) (no : gset string) (t : Z)
    (loc1 loc2 : source_location) (toks1 : list Token) :
  let cfg := {| logLevel := LogLevel.Info; timezoneAdjustment := tz |} in
  "Info.log" ∉ no →
  count_nl (file_name loc2) = 0 →
  count_nl (function_name loc2) = 0 →
  let w' := ((LOG_DEBUG cfg loc1 toks1;;
              LOG_WARNING cfg loc2 [TStr "disk full"])
               (initial_world cfg d no t)).2 in
  ∃ text,
    disk w' !! "Info.log" = Some (text ++ endl_text) ∧
    count_nl text = 0 ∧
    (∃ a b, text = a ++ "[Warning]" ++ b) ∧
    (∃ a, text = a ++ "disk full").
Proof.
  intros cfg Hno Hfile Hfun. cbv zeta.
  rewrite bind_run. cbv beta. unfold LOG_DEBUG, LOG_WARNING.
  rewrite (SIMPLE_LOGGER_LOG_inactive cfg LogLevel.Debug) by reflexivity.
  cbn [snd].
  assert (Hact : is_active cfg LogLevel.Warning = true) by reflexivity.
  assert (Hc : is_open (logFile (initial_world cfg d no t)) = false)
    by reflexivity.
  assert (Hn : logFileName (initial_world cfg d no t) = "Info.log")
    by reflexivity.
  assert (Ht : clock (initial_world cfg d no t) = t) by reflexivity.
  assert (Hd : denied (initial_world cfg d no t) = no) by reflexivity.
  revert Hc Hn Ht Hd. generalize (initial_world cfg d no t) as w0.
  intros w0 Hc Hn Ht Hd.
  destruct (getLogFile_first w0) as (_ & Hp & Hs & Hb & Hk);
    [done | by rewrite Hn, Hd |].
  rewrite Hn in Hp. revert Hp Hs Hb Hk.
  generalize (getLogFile w0).2 as w1. intros w1 Hp Hs Hb Hk.
  rewrite (SIMPLE_LOGGER_LOG_on_open_file cfg LogLevel.Warning loc2 _ w1
             "Info.log") by (done || by rewrite Hs).
  rewrite Hb, Hs, Hk, Ht, str_app_nil_l.
  eexists. split; [reflexivity|].
  split; [by apply count_nl_preamble|].
  rewrite render_preamble by reflexivity.
  replace (pad (ios_fill ios_init) (ios_width ios_init) "[") with "["
    by reflexivity.
  replace (render (ios_after_time ios_init) [TStr "disk full"]).1
    with "disk full" by reflexivity.
  replace (logLevelToString LogLevel.Warning) with "Warning" by reflexivity.
  split.
  - exists ("[" ++ timestamp cfg t ++ "]").
    exists ("[" ++ trimmed (file_name loc2) ++ ":" ++
            decimal (Z.of_N (line loc2)) ++ "][" ++ function_name loc2 ++
            "] " ++ "disk full").
    rewrite !str_app_assoc. reflexivity.
  - exists ("[" ++ timestamp cfg t ++ "][" ++ "Warning" ++ "][" ++
            trimmed (file_name loc2) ++ ":" ++
            decimal (Z.of_N (line loc2)) ++ "][" ++ function_name loc2 ++
            "] ").
    rewrite !str_app_assoc. reflexivity.
Qed.

Lemma debug_then_warning_writes_one_line_witness :
  let cfg := {| logLevel := LogLevel.Info; timezoneAdjustment := 0 |} in
  let w' := ((LOG_DEBUG cfg
                {| file_name := "/src/a.cpp"; line := 3;
                   function_name := "f" |} [TStr "starting"];;
              LOG_WARNING cfg
                {| file_name := "/src/main.cpp"; line := 7;
                   function_name := "main" |} [TStr "disk full"])
               (initial_world cfg {["Info.log" := "kept"]} ∅ 0)).2 in
  ∃ text,
    disk w' !! "Info.log" = Some (text ++ endl_text) ∧
    count_nl text = 0 ∧
    (∃ a b, text = a ++ "[Warning]" ++ b) ∧
    (∃ a, text = a ++ "disk full").
Proof.
  exact (debug_then_warning_writes_one_line 0 {["Info.log" := "kept"]} ∅ 0
    {| file_name := "/src/a.cpp"; line := 3; function_name := "f" |}
    {| file_name := "/src/main.cpp"; line := 7; function_name := "main" |}
    [TStr "starting"] (not_elem_of_empty _) eq_refl eq_refl).
Defined.

(** ** The timestamp *)

Lemma print_time_appends_timestamp (cfg : SimpleLoggerConfig)
    (this : SimpleLogger) (w : World) :
  is_active cfg (Level this) = true →
  accepting (m_stream this) w = true →
  bytes_of (m_stream this) (print_time cfg this w).2
  = bytes_of (m_stream this) w ++
    timestamp_with (ios_flags (get_ios (m_stream this) w)) cfg (clock w).
Proof.
  intros Hact Ha. rewrite print_time_run by done. cbn [snd].
  rewrite bytes_of_add_event.
  destruct (ostream_shl_all_extends (m_stream this)
              (time_tokens cfg (clock w)) w Ha) as (Hb & _).
  by rewrite Hb, render_time_tokens.
Qed.

Lemma ms_field_shape (ms : Z) :
  (0 ≤ ms < 100)%Z →
  ∃ d1 d2, pad "0" 3 (decimal ms) = String "0" (String d1 (String d2 "")).
Proof.
  intros H. destruct ms as [|p|p]; [by eexists _, _| |lia].
  do 7 (try destruct p as [p|p|]); try lia; by eexists _, _.
Qed.

(** The hour is not brought back into the range of a day, and the last
    field shows the milliseconds modulo one hundred. *)
Example timestamp_hour_past_midnight :
  timestamp {| logLevel := LogLevel.Info; timezoneAdjustment := 2 |}
    (23 * ns_per_h + 1234 * ns_per_ms) = "25:00:01.034".
Proof. reflexivity. Qed.

Example timestamp_hour_negative :
  timestamp {| logLevel := LogLevel.Info; timezoneAdjustment := -5 |}
    (2 * ns_per_h) = "-3:00:00.000".
Proof. reflexivity. Qed.

(** The fields follow the flags the destination was left with: the same
    instant on a stream in decimal, on one left in hexadecimal, and on one
    left with [showpos]. *)
Example timestamp_follows_flags :
  let t := (12 * ns_per_h + 34 * ns_per_min + 56 * ns_per_s
            + 89 * ns_per_ms)%Z in
  timestamp_with fmtflags_init config_ndebug t = "12:34:56.089" ∧
  timestamp_with (set_base Hex fmtflags_init) config_ndebug t
  = "0c:22:38.059" ∧
  timestamp_with (set_showpos true fmtflags_init) config_ndebug t
  = "+12:+34:+56.+89".
Proof. vm_compute. by repeat split. Qed.

(** C5. For a clock that reads a time after the epoch, [print_time]
    appends four fields, each the destination's own rendering of an
    integer with fill ['0']: the hour count modulo 24 plus the timezone
    adjustment, in a field of width 2; minutes and seconds modulo 60; and
    the millisecond count modulo 100 in a field of width 3.  The hour lies
    within the 24 values that start at the adjustment: nothing folds it
    back into 0..23.  On a destination whose flags are those of an
    untouched stream the fields are the decimal texts with zeros in front,
    so the last one reads as a zero and two digits. *)
Theorem print_time_fields (cfg : SimpleLoggerConfig) (this : SimpleLogger)
    (w : World) :
  is_active cfg (Level this) = true →
  accepting (m_stream this) w = true →
  (0 ≤ clock w)%Z →
  let t := clock w in
  let h := ((t / ns_per_h) mod 24 + timezoneAdjustment cfg)%Z in
  let min := ((t / ns_per_min) mod 60)%Z in
  let s := ((t / ns_per_s) mod 60)%Z in
  let ms := ((t / ns_per_ms) mod 100)%Z in
  let fl := ios_flags (get_ios (m_stream this) w) in
  bytes_of (m_stream this) (print_time cfg this w).2
  = bytes_of (m_stream this) w ++
    zero_field fl 2 h ++ ":" ++ zero_field fl 2 min ++ ":" ++
    zero_field fl 2 s ++ "." ++ zero_field fl 3 ms ∧
  (0 ≤ ms < 100)%Z ∧
  (timezoneAdjustment cfg ≤ h < timezoneAdjustment cfg + 24)%Z ∧
  (default_format fl = true →
   zero_field fl 2 h = pad "0" 2 (decimal h) ∧
   zero_field fl 2 min = pad "0" 2 (decimal min) ∧
   zero_field fl 2 s = pad "0" 2 (decimal s) ∧
   zero_field fl 3 ms = pad "0" 3 (decimal ms) ∧
   ∃ d1 d2, zero_field fl 3 ms = String "0" (String d1 (String d2 ""))).
Proof.
  intros Hact Ha Ht. cbv zeta.
  assert (Hms : (0 ≤ (clock w / ns_per_ms) mod 100 < 100)%Z)
    by (apply Z.mod_pos_bound; lia).
  split; [|split; [done|split]].
  - rewrite print_time_appends_timestamp by done.
    unfold timestamp_with, duration_cast.
    rewrite !Z.quot_div_nonneg by done.
    rewrite !Z.rem_mod_nonneg by (done || by apply Z.div_pos).
    reflexivity.
  - pose proof (Z.mod_pos_bound (clock w / ns_per_h) 24). lia.
  - intros Hd. rewrite !zero_field_default by done.
    repeat split. by apply ms_field_shape.
Qed.

Lemma print_time_fields_witness :
  let cfg := {| logLevel := LogLevel.Info; timezoneAdjustment := 2 |} in
  let this := {| Level := LogLevel.Error; m_stream := Caller 0 |} in
  let w := initial_world cfg ∅ ∅ (23 * ns_per_h + 1234 * ns_per_ms) in
  bytes_of (Caller 0) (print_time cfg this w).2 = "25:00:01.034".
Proof.
  exact (proj1 (print_time_fields
    {| logLevel := LogLevel.Info; timezoneAdjustment := 2 |}
    {| Level := LogLevel.Error; m_stream := Caller 0 |}
    (initial_world {| logLevel := LogLevel.Info; timezoneAdjustment := 2 |}
       ∅ ∅ (23 * ns_per_h + 1234 * ns_per_ms))
    eq_refl eq_refl ltac:(by vm_compute))).
Defined.

(** * Further properties of the code *)

(** ** The two call styles *)

Section CallStyles.

Context (cfg : SimpleLoggerConfig).

Lemma GET_LOG_STREAM_active_run (level : LogLevel) (stream : M stream_ref)
    (location : source_location) (toks : list Token) (w : World) :
  is_active cfg level = true →
  GET_LOG_STREAM cfg level stream location
    (λ name, ostream_shl_all name toks) w
  = (tt, (endl (stream w).1
            (add_event EvNow
               (ostream_shl_all (stream w).1
                  (preamble_tokens cfg level (clock (stream w).2) location
                   ++ toks) (stream w).2).2)).2).
Proof.
  intros Ha. unfold GET_LOG_STREAM.
  repeat (rewrite bind_run; cbv beta).
  rewrite SimpleLogger_new_active by done.
  cbn [fst snd get_stream m_stream].
  rewrite SimpleLogger_delete_run. cbn [Level m_stream].
  rewrite Ha, ostream_shl_all_add_event. cbn [fst snd].
  by rewrite ostream_shl_all_app_snd.
Qed.

(** X1. For a level at or above the threshold the named-stream style and
    the chained style are the same program: [GET_LOG_STREAM] followed by a
    scope that streams the tokens through the name leaves the world that
    the chained statement with those tokens leaves. *)
Theorem GET_LOG_STREAM_is_chained_statement (level : LogLevel)
    (stream : M stream_ref) (location : source_location)
    (toks : list Token) (w : World) :
  is_active cfg level = true →
  GET_LOG_STREAM cfg level stream location
    (λ name, ostream_shl_all name toks) w
  = SIMPLE_LOGGER_LOG cfg level stream location toks w.
Proof.
  intros Ha.
  by rewrite GET_LOG_STREAM_active_run, SIMPLE_LOGGER_LOG_active.
Qed.

(** X2. A statement at or above the threshold reads the clock exactly
    once and opens no file itself: its system calls are those of the
    expression that names its stream, then one reading of the clock,
    whatever the destination and the tokens. *)
Theorem active_statement_reads_clock_once (level : LogLevel)
    (stream : M stream_ref) (location : source_location)
    (toks : list Token) (w : World) :
  is_active cfg level = true →
  let w' := (SIMPLE_LOGGER_LOG cfg level stream location toks w).2 in
  trace w' = (trace (stream w).2 ++ [EvNow])%list ∧
  count_events is_clock_read (trace w')
  = (count_events is_clock_read (trace (stream w).2) + 1)%nat ∧
  count_events is_open_attempt (trace w')
  = count_events is_open_attempt (trace (stream w).2).
Proof.
  intros Ha. cbv zeta. rewrite SIMPLE_LOGGER_LOG_active_trace by done.
  rewrite !count_events_snoc. simpl. split; [done|]. split; [done|lia].
Qed.

(** X3. Below the threshold a [LOG_...] statement is a bare call of
    [getLogFile]: nothing else happens.  If the log file is open it changes
    nothing; if the file is closed and can be opened it is opened, and
    whatever it held is gone. *)
Theorem inactive_LOG_is_getLogFile (level : LogLevel)
    (location : source_location) (toks : list Token) (w : World) :
  is_active cfg level = false →
  let w' := (SIMPLE_LOGGER_LOG cfg level getLogFile location toks w).2 in
  w' = (getLogFile w).2 ∧
  (is_open (logFile w) = true → w' = w) ∧
  (is_open (logFile w) = false → logFileName w ∉ denied w →
   disk w' !! logFileName w = Some "" ∧
   trace w' = (trace w ++ [EvOpen (logFileName w) true])%list ∧
   count_events is_clock_read (trace w')
   = count_events is_clock_read (trace w)).
Proof.
  intros Ha. cbv zeta. rewrite SIMPLE_LOGGER_LOG_inactive by done.
  cbn [snd]. split; [done|]. split.
  - intros Ho. by rewrite getLogFile_open.
  - intros Hc Hd. rewrite getLogFile_closed by done. unfold ofstream_open.
    rewrite bool_decide_false by done. cbn -[count_events].
    rewrite lookup_insert_eq, count_events_snoc. simpl.
    split; [done|]. split; [done|lia].
Qed.

End CallStyles.

Lemma GET_LOG_STREAM_is_chained_statement_witness :
  GET_LOG_STREAM config_ndebug LogLevel.Warning getLogFile
    {| file_name := "/src/main.cpp"; line := 7; function_name := "main" |}
    (λ name, ostream_shl_all name [TStr "disk "; TLong 3])
    (initial_world config_ndebug ∅ ∅ 0)
  = SIMPLE_LOGGER_LOG config_ndebug LogLevel.Warning getLogFile
      {| file_name := "/src/main.cpp"; line := 7; function_name := "main" |}
      [TStr "disk "; TLong 3] (initial_world config_ndebug ∅ ∅ 0).
Proof.
  exact (GET_LOG_STREAM_is_chained_statement config_ndebug LogLevel.Warning
    getLogFile
    {| file_name := "/src/main.cpp"; line := 7; function_name := "main" |}
    [TStr "disk "; TLong 3] (initial_world config_ndebug ∅ ∅ 0) eq_refl).
Defined.

Lemma active_statement_reads_clock_once_witness :
  let w' := (SIMPLE_LOGGER_LOG config_ndebug LogLevel.Error getLogFile
               {| file_name := "/src/main.cpp"; line := 7;
                  function_name := "main" |}
               [TStr "x"] (initial_world config_ndebug ∅ ∅ 0)).2 in
  trace w'
  = (trace (getLogFile (initial_world config_ndebug ∅ ∅ 0)).2 ++ [EvNow])%list.
Proof.
  exact (proj1 (active_statement_reads_clock_once config_ndebug
    LogLevel.Error getLogFile
    {| file_name := "/src/main.cpp"; line := 7; function_name := "main" |}
    [TStr "x"] (initial_world config_ndebug ∅ ∅ 0) eq_refl)).
Defined.

Lemma inactive_LOG_is_getLogFile_witness :
  let w := initial_world config_ndebug {["Info.log" := "kept"]} ∅ 0 in
  let w' := (SIMPLE_LOGGER_LOG config_ndebug LogLevel.Debug getLogFile
               {| file_name := "/src/main.cpp"; line := 7;
                  function_name := "main" |} [TStr "x"] w).2 in
  w' = (getLogFile w).2.
Proof.
  exact (proj1 (inactive_LOG_is_getLogFile config_ndebug LogLevel.Debug
    {| file_name := "/src/main.cpp"; line := 7; function_name := "main" |}
    [TStr "x"] (initial_world config_ndebug {["Info.log" := "kept"]} ∅ 0)
    eq_refl)).
Defined.

(** ** The format of a line *)

Lemma render_texts (st : ios) (texts : list string) :
  ios_width st = 0 → (render st (map TStr texts)).1 = join texts.
Proof.
  revert st. induction texts as [|s texts IH]; intros st Hw; [done|].
  cbn [map render render_token]. specialize (IH (ios_set_width 0 st) eq_refl).
  destruct (render (ios_set_width 0 st) (map TStr texts)) as [b st2].
  cbn [fst snd join] in *. unfold text_field.
  by rewrite Hw, pad_field_width_0, str_app_nil_l, IH.
Qed.

Lemma render_preamble_state (cfg : SimpleLoggerConfig) (level : LogLevel)
    (t : Z) (location : source_location) (toks : list Token) (st : ios) :
  (render st (preamble_tokens cfg level t location ++ toks)).2
  = (render (ios_after_time st) toks).2.
Proof.
  unfold preamble_tokens.
  rewrite <- !(assoc_L (++) (A:=list Token)).
  rewrite (render_app st [TStr "["]). cbn [fst snd].
  rewrite (render_app _ (time_tokens cfg t)), render_time_tokens.
  cbn [fst snd].
  match goal with |- context [render ?s (?l ++ toks)] =>
    rewrite (render_app s l toks) end.
  cbn [fst snd]. reflexivity.
Qed.

Lemma render_keeps_fill (st : ios) (toks : list Token) :
  forallb (λ t, negb (is_setfill t)) toks = true →
  ios_fill (render st toks).2 = ios_fill st.
Proof.
  revert st. induction toks as [|t toks IH]; intros st H; [done|].
  simpl in H. apply andb_true_iff in H as [Ht H]. simpl.
  destruct (render_token st t) as [a st1] eqn:Et.
  specialize (IH st1 H). destruct (render st1 toks) as [b st2].
  simpl in *. rewrite IH.
  destruct t; simpl in Et; injection Et as <- <-; done.
Qed.

Section LineFormat.

Context (cfg : SimpleLoggerConfig).

(** X4. The line of a statement at or above the threshold whose tokens
    are texts, on a destination that takes bytes, has no field width
    pending and has the formatting flags of an untouched stream: the
    timestamp, the label of the level, the file name cut after its last
    slash with the line number, and the function name, each in brackets; a
    space; the texts one after the other; the line terminator. *)
Theorem active_statement_line_format (level : LogLevel)
    (stream : M stream_ref) (location : source_location)
    (texts : list string) (w : World) :
  is_active cfg level = true →
  accepting (stream w).1 (stream w).2 = true →
  ios_width (get_ios (stream w).1 (stream w).2) = 0 →
  default_format (ios_flags (get_ios (stream w).1 (stream w).2)) = true →
  bytes_of (stream w).1
    (SIMPLE_LOGGER_LOG cfg level stream location (map TStr texts) w).2
  = bytes_of (stream w).1 (stream w).2 ++
    "[" ++ timestamp cfg (clock (stream w).2) ++ "][" ++
    logLevelToString level ++ "][" ++
    trimmed (file_name location) ++ ":" ++
    decimal (Z.of_N (line location)) ++ "][" ++
    function_name location ++ "] " ++ join texts ++ endl_text.
Proof.
  intros Hact Ha Hw Hd.
  destruct (SIMPLE_LOGGER_LOG_extends cfg level stream location
              (map TStr texts) w Hact Ha) as (Hb & _).
  rewrite Hb, render_preamble, Hw, pad_width_0, render_texts by done.
  by rewrite !str_app_assoc.
Qed.

(** X5. [print_time] sets the fill character to ['0'] and nothing sets it
    back: after a statement at or above the threshold whose tokens set no
    fill character, the destination is left with fill ['0']; and inside
    the statement an integer given a field width is filled with ['0'],
    which on a destination with the flags of an untouched stream means
    zeros in front of the decimal text. *)
Theorem active_statement_leaves_fill_zero (level : LogLevel)
    (stream : M stream_ref) (location : source_location)
    (toks : list Token) (n : nat) (z : Z) (w : World) :
  is_active cfg level = true →
  accepting (stream w).1 (stream w).2 = true →
  forallb (λ t, negb (is_setfill t)) toks = true →
  let fl := ios_flags (get_ios (stream w).1 (stream w).2) in
  ios_fill (get_ios (stream w).1
              (SIMPLE_LOGGER_LOG cfg level stream location toks w).2)
  = "0"%char ∧
  (∃ head,
     bytes_of (stream w).1
       (SIMPLE_LOGGER_LOG cfg level stream location [TSetw n; TLong z] w).2
     = head ++ function_name location ++ "] " ++
       zero_field fl n z ++ endl_text) ∧
  (default_format fl = true → zero_field fl n z = pad "0" n (decimal z)).
Proof.
  intros Hact Ha Hnf. cbv zeta. split; [|split].
  - destruct (SIMPLE_LOGGER_LOG_extends cfg level stream location toks w
                Hact Ha) as (_ & -> & _).
    by rewrite render_preamble_state, render_keeps_fill.
  - destruct (SIMPLE_LOGGER_LOG_extends cfg level stream location
                [TSetw n; TLong z] w Hact Ha) as (-> & _).
    rewrite render_preamble_with.
    exists (bytes_of (stream w).1 (stream w).2 ++
            text_field (get_ios (stream w).1 (stream w).2) "[" ++
            timestamp_with (ios_flags (get_ios (stream w).1 (stream w).2))
              cfg (clock (stream w).2) ++ "][" ++
            logLevelToString level ++ "][" ++
            trimmed (file_name location) ++ ":" ++
            ((format_unsigned
                (ios_flags (get_ios (stream w).1 (stream w).2))
                (line location)).1 ++
             (format_unsigned
                (ios_flags (get_ios (stream w).1 (stream w).2))
                (line location)).2) ++ "][").
    cbn [render render_token fst snd]. unfold long_field, zero_field.
    cbn [ios_after_time ios_set_width ios_fill ios_width ios_flags].
    by rewrite str_app_nil_r, str_app_nil_l, !str_app_assoc.
  - apply zero_field_default.
Qed.

End LineFormat.

Lemma active_statement_line_format_witness :
  let location :=
    {| file_name := "/src/main.cpp"; line := 7; function_name := "main" |} in
  let w := initial_world config_ndebug ∅ ∅ 0 in
  bytes_of (Caller 0)
    (SIMPLE_LOGGER_LOG config_ndebug LogLevel.Error (mret (Caller 0))
       location (map TStr ["disk "; "full"]) w).2
  = "[00:00:00.000][Error][main.cpp:7][main] disk full" ++ endl_text.
Proof.
  exact (active_statement_line_format config_ndebug LogLevel.Error
    (mret (Caller 0))
    {| file_name := "/src/main.cpp"; line := 7; function_name := "main" |}
    ["disk "; "full"] (initial_world config_ndebug ∅ ∅ 0)
    eq_refl eq_refl eq_refl eq_refl).
Defined.

Lemma active_statement_leaves_fill_zero_witness :
  ios_fill (get_ios (Caller 0)
    (SIMPLE_LOGGER_LOG config_ndebug LogLevel.Error (mret (Caller 0))
       {| file_name := "/src/main.cpp"; line := 7; function_name := "main" |}
       [TStr "x"] (initial_world config_ndebug ∅ ∅ 0)).2) = "0"%char.
Proof.
  exact (proj1 (active_statement_leaves_fill_zero config_ndebug
    LogLevel.Error (mret (Caller 0))
    {| file_name := "/src/main.cpp"; line := 7; function_name := "main" |}
    [TStr "x"] 5 42 (initial_world config_ndebug ∅ ∅ 0)
    eq_refl eq_refl eq_refl)).
Defined.

(** ** Statements on failed destinations *)

Section FailedDestinations.

Context (cfg : SimpleLoggerConfig).

(** X6. A statement at or above the threshold on a stream that has failed
    writes nothing: the disk and the bytes of every destination are what
    they were, and the stream is still failed.  The statement does its
    work all the same: the clock is read once. *)
Theorem active_statement_on_failed_stream (level : LogLevel)
    (r : stream_ref) (location : source_location) (toks : list Token)
    (w : World) :
  is_active cfg level = true →
  ios_fail (get_ios r w) = true →
  let w' := (SIMPLE_LOGGER_LOG cfg level (mret r) location toks w).2 in
  disk w' = disk w ∧
  (∀ r', bytes_of r' w' = bytes_of r' w) ∧
  ios_fail (get_ios r w') = true ∧
  trace w' = (trace w ++ [EvNow])%list.
Proof.
  intros Hact Hf. cbv zeta.
  pose proof (SIMPLE_LOGGER_LOG_failed cfg level (mret r : M stream_ref)
                location toks w Hact) as H.
  change ((mret r : M stream_ref) w) with (r, w) in H. cbn [fst snd] in H.
  destruct (H Hf) as (w2 & (Hd & Hb & Ht & _) & Hf2 & ->).
  split; [exact Hd|]. split.
  - intros r'. by rewrite bytes_of_add_event.
  - split; [by rewrite get_ios_add_event|]. simpl. by rewrite Ht.
Qed.

Lemma SIMPLE_LOGGER_LOG_unopenable (level : LogLevel)
    (location : source_location) (toks : list Token) (w : World) :
  is_open (logFile w) = false →
  logFileName w ∈ denied w →
  let w' := (SIMPLE_LOGGER_LOG cfg level getLogFile location toks w).2 in
  disk w' = disk w ∧
  (∀ r', bytes_of r' w' = bytes_of r' w) ∧
  is_open (logFile w') = false ∧
  logFileName w' = logFileName w ∧ denied w' = denied w ∧
  trace w'
  = (trace w ++ EvOpen (logFileName w) false ::
       if is_active cfg level then [EvNow] else [])%list.
Proof.
  intros Hc Hd. cbv zeta.
  assert (Hg : getLogFile w
    = (LogFile,
       set_logFile {| of_ios := ios_set_fail ios_init; of_path := None |}
         (add_event (EvOpen (logFileName w) false) w))).
  { rewrite getLogFile_closed by done. unfold ofstream_open.
    by rewrite bool_decide_true. }
  assert (Hb1 : ∀ r', bytes_of r'
      (set_logFile {| of_ios := ios_set_fail ios_init; of_path := None |}
         (add_event (EvOpen (logFileName w) false) w)) = bytes_of r' w).
  { intros [l| |id]; try done. simpl. unfold is_open in Hc.
    by destruct (of_path (logFile w)). }
  destruct (is_active cfg level) eqn:Hact.
  - destruct (SIMPLE_LOGGER_LOG_failed cfg level getLogFile location toks w
                Hact)
      as (w2 & (Hdk & Hb & Ht & Hp & Hn & Hx) & Hf2 & ->).
    { by rewrite Hg. }
    rewrite Hg in *. cbn [fst snd] in *.
    split; [exact Hdk|]. split.
    { intros r'. by rewrite bytes_of_add_event, Hb, Hb1. }
    split; [unfold is_open; simpl; by rewrite Hp|].
    split; [exact Hn|]. split; [exact Hx|].
    simpl. rewrite Ht. simpl.
    by rewrite <- (assoc_L (++) (A:=list Event)).
  - rewrite SIMPLE_LOGGER_LOG_inactive by done. rewrite Hg. cbn [snd].
    by repeat split.
Qed.

(** X7. When the log file cannot be opened, a [LOG_...] statement of any
    level leaves the disk and every destination as they were and the log
    file closed; it has made one failed attempt to open the file, and read
    the clock if it is at or above the threshold.  Name and permissions
    are untouched, so the next statement tries again. *)
Theorem LOG_with_unopenable_file (level : LogLevel)
    (location : source_location) (toks : list Token) (w : World) :
  is_open (logFile w) = false →
  logFileName w ∈ denied w →
  let w' := (SIMPLE_LOGGER_LOG cfg level getLogFile location toks w).2 in
  disk w' = disk w ∧
  (∀ r', bytes_of r' w' = bytes_of r' w) ∧
  is_open (logFile w') = false ∧
  logFileName w' = logFileName w ∧ denied w' = denied w ∧
  trace w'
  = (trace w ++ EvOpen (logFileName w) false ::
       if is_active cfg level then [EvNow] else [])%list.
Proof.
  intros Hc Hd. by apply SIMPLE_LOGGER_LOG_unopenable.
Qed.

End FailedDestinations.

Lemma active_statement_on_failed_stream_witness :
  let w := (getLogFile (initial_world config_ndebug ∅ {["Info.log"]} 0)).2 in
  let w' := (SIMPLE_LOGGER_LOG config_ndebug LogLevel.Error (mret LogFile)
               {| file_name := "/src/main.cpp"; line := 7;
                  function_name := "main" |} [TStr "x"] w).2 in
  disk w' = disk w.
Proof.
  exact (proj1 (active_statement_on_failed_stream config_ndebug
    LogLevel.Error LogFile
    {| file_name := "/src/main.cpp"; line := 7; function_name := "main" |}
    [TStr "x"]
    (getLogFile (initial_world config_ndebug ∅ {["Info.log"]} 0)).2
    eq_refl eq_refl)).
Defined.

Lemma LOG_with_unopenable_file_witness :
  let w := initial_world config_ndebug ∅ {["Info.log"]} 0 in
  let w' := (SIMPLE_LOGGER_LOG config_ndebug LogLevel.Error getLogFile
               {| file_name := "/src/main.cpp"; line := 7;
                  function_name := "main" |} [TStr "x"] w).2 in
  disk w' = disk w.
Proof.
  exact (proj1 (LOG_with_unopenable_file config_ndebug LogLevel.Error
    {| file_name := "/src/main.cpp"; line := 7; function_name := "main" |}
    [TStr "x"] (initial_world config_ndebug ∅ {["Info.log"]} 0)
    eq_refl ltac:(by vm_compute))).
Defined.

(** ** Programs *)

Lemma render_keeps_fill_nl_free (st : ios) (ts : list Token) :
  Ascii.eqb (ios_fill st) newline = false →
  forallb token_nl_free ts = true →
  Ascii.eqb (ios_fill (render st ts).2) newline = false.
Proof.
  revert st. induction ts as [|t ts IH]; intros st Hf Hts; [done|].
  simpl in Hts. apply andb_true_iff in Hts as [Ht Hts]. simpl.
  destruct (render_token st t) as [a st1] eqn:Et.
  assert (Hf1 : Ascii.eqb (ios_fill st1) newline = false).
  { destruct t; simpl in Et; injection Et as <- <-; simpl; try done.
    by apply negb_true_iff. }
  specialize (IH st1 Hf1 Hts). by destruct (render st1 ts).
Qed.

Lemma getLogFile_first_full (w : World) :
  is_open (logFile w) = false → logFileName w ∉ denied w →
  getLogFile (getLogFile w).2 = (LogFile, (getLogFile w).2) ∧
  disk (getLogFile w).2 !! logFileName w = Some "" ∧
  trace (getLogFile w).2
  = (trace w ++ [EvOpen (logFileName w) true])%list.
Proof.
  intros Hc Hd. rewrite (getLogFile_closed w) by done. unfold ofstream_open.
  rewrite bool_decide_false by done. cbn [fst snd].
  split; [by apply getLogFile_open|]. simpl.
  by rewrite lookup_insert_eq.
Qed.

Section ProgramFacts.

Context (cfg : SimpleLoggerConfig).

(** A statement sees the log file only through [getLogFile], so it makes
    no difference whether the file was opened by the statement or just
    before it. *)
Lemma SIMPLE_LOGGER_LOG_after_getLogFile (level : LogLevel)
    (location : source_location) (toks : list Token) (w : World) :
  getLogFile (getLogFile w).2 = (LogFile, (getLogFile w).2) →
  (getLogFile w).1 = LogFile →
  SIMPLE_LOGGER_LOG cfg level getLogFile location toks w
  = SIMPLE_LOGGER_LOG cfg level getLogFile location toks (getLogFile w).2.
Proof.
  intros Hg H1. destruct (is_active cfg level) eqn:Hact.
  - rewrite !SIMPLE_LOGGER_LOG_active by done. by rewrite Hg, H1.
  - rewrite !SIMPLE_LOGGER_LOG_inactive by done. by rewrite Hg.
Qed.

(** One statement while the log file is open and in good state. *)
Lemma statement_on_open_file (level : LogLevel) (location : source_location)
    (toks : list Token) (w : World) (p c : string) :
  of_path (logFile w) = Some p →
  ios_fail (get_ios LogFile w) = false →
  disk w !! p = Some c →
  let w' := (SIMPLE_LOGGER_LOG cfg level getLogFile location toks w).2 in
  let text := render (get_ios LogFile w)
                (preamble_tokens cfg level (clock w) location ++ toks) in
  of_path (logFile w') = Some p ∧
  ios_fail (get_ios LogFile w') = false ∧
  if is_active cfg level then
    disk w' !! p = Some (c ++ text.1 ++ endl_text) ∧
    get_ios LogFile w' = text.2 ∧
    trace w' = (trace w ++ [EvNow])%list
  else w' = w.
Proof.
  intros Hp Hf Hc. cbv zeta.
  assert (Ho : is_open (logFile w) = true) by (unfold is_open; by rewrite Hp).
  destruct (is_active cfg level) eqn:Hact.
  - assert (Ha : accepting LogFile w = true).
    { unfold accepting. by rewrite Hf, Ho. }
    pose proof (SIMPLE_LOGGER_LOG_extends cfg level getLogFile location toks
                  w Hact) as H.
    rewrite getLogFile_open in H by done. cbn [fst snd] in H.
    destruct (H Ha) as (_ & Hs & Ha' & (_ & Hp' & _)).
    pose proof (SIMPLE_LOGGER_LOG_active_trace cfg level getLogFile location
                  toks w Hact) as Ht.
    rewrite getLogFile_open in Ht by done. cbn [snd] in Ht.
    rewrite (SIMPLE_LOGGER_LOG_on_open_file cfg level location toks w p)
      by done.
    unfold accepting in Ha'. apply andb_true_iff in Ha' as [Hf' _].
    apply negb_true_iff in Hf'.
    split; [by rewrite Hp', Hp|]. split; [done|].
    split; [|done]. unfold bytes_of. by rewrite Hp, Hc.
  - rewrite SIMPLE_LOGGER_LOG_inactive, getLogFile_open by done. done.
Qed.

Lemma statements_text_cons (st : ios) (s : Statement) (ss : list Statement) :
  statements_text cfg st (s :: ss)
  = if is_active cfg (st_level s) then
      let r := render st (preamble_tokens cfg (st_level s) (st_time s)
                            (st_location s) ++ st_tokens s) in
      (r.1 ++ endl_text ++ (statements_text cfg r.2 ss).1,
       (statements_text cfg r.2 ss).2)
    else statements_text cfg st ss.
Proof.
  cbn [statements_text]. destruct (is_active cfg (st_level s)); [|done].
  destruct (render st _) as [a st1]. cbn [fst snd].
  by destruct (statements_text cfg st1 ss).
Qed.

Lemma active_count_cons (s : Statement) (ss : list Statement) :
  active_count cfg (s :: ss)
  = ((if is_active cfg (st_level s) then 1 else 0) + active_count cfg ss)%nat.
Proof.
  unfold active_count. cbn [List.filter].
  by destruct (is_active cfg (st_level s)).
Qed.

Lemma run_statements_cons_snd (s : Statement) (ss : list Statement)
    (w : World) :
  (run_statements cfg (s :: ss) w).2
  = (run_statements cfg ss
       (SIMPLE_LOGGER_LOG cfg (st_level s) getLogFile (st_location s)
          (st_tokens s) (set_clock (st_time s) w)).2).2.
Proof.
  cbn [run_statements]. rewrite bind_run. cbv beta.
  unfold run_statement. by rewrite bind_run.
Qed.

Lemma run_statements_on_open_file (ss : list Statement) (w : World)
    (p c : string) :
  of_path (logFile w) = Some p →
  ios_fail (get_ios LogFile w) = false →
  disk w !! p = Some c →
  let w' := (run_statements cfg ss w).2 in
  disk w' !! p
  = Some (c ++ (statements_text cfg (get_ios LogFile w) ss).1) ∧
  get_ios LogFile w' = (statements_text cfg (get_ios LogFile w) ss).2 ∧
  of_path (logFile w') = Some p ∧
  trace w' = (trace w ++ replicate (active_count cfg ss) EvNow)%list.
Proof.
  revert w c. induction ss as [|s ss IH]; intros w c Hp Hf Hc; cbv zeta.
  - simpl. by rewrite str_app_nil_r, (right_id_L [] (++)).
  - rewrite !run_statements_cons_snd.
    pose proof (statement_on_open_file (st_level s) (st_location s)
      (st_tokens s) (set_clock (st_time s) w) p c Hp Hf Hc) as H.
    cbv zeta in H. destruct H as (Hp1 & Hf1 & H).
    change (clock (set_clock (st_time s) w)) with (st_time s) in H.
    change (get_ios LogFile (set_clock (st_time s) w))
      with (get_ios LogFile w) in H.
    rewrite statements_text_cons, active_count_cons.
    destruct (is_active cfg (st_level s)) eqn:Hact.
    + destruct H as (Hc1 & Hs1 & Ht1).
      destruct (IH _ _ Hp1 Hf1 Hc1) as (Hc2 & Hs2 & Hp2 & Ht2).
      rewrite Hs1 in Hc2, Hs2. cbv zeta. cbn [fst snd].
      split; [by rewrite Hc2, !str_app_assoc|].
      split; [done|]. split; [done|].
      rewrite Ht2, Ht1. simpl.
      by rewrite <- (assoc_L (++) (A:=list Event)).
    + rewrite H. exact (IH (set_clock (st_time s) w) c Hp Hf Hc).
Qed.

Lemma statements_text_count (st : ios) (ss : list Statement) :
  Ascii.eqb (ios_fill st) newline = false →
  forallb statement_nl_free ss = true →
  count_nl (statements_text cfg st ss).1 = active_count cfg ss.
Proof.
  revert st. induction ss as [|s ss IH]; intros st Hf Hss; [done|].
  simpl in Hss. apply andb_true_iff in Hss as [Hs Hss].
  unfold statement_nl_free in Hs.
  apply andb_true_iff in Hs as [Hs Htoks].
  apply andb_true_iff in Hs as [Hfile Hfun].
  apply Nat.eqb_eq in Hfile, Hfun.
  rewrite statements_text_cons, active_count_cons.
  destruct (is_active cfg (st_level s)); [|by apply IH].
  cbv zeta. cbn [fst snd].
  rewrite !count_nl_app, count_nl_preamble by done.
  rewrite IH; [done| |done].
  rewrite render_preamble_state. by apply render_keeps_fill_nl_free.
Qed.

(** X8. A program of [LOG_...] statements that starts with the log file
    closed and able to be opened: if it has at least one statement, the
    file ends up holding exactly the lines of the statements at or above
    the threshold, in program order, whatever it held before; the file was
    opened once and the clock was read once per such statement.  When no
    call site or token holds a line terminator, the file has as many lines
    as there were such statements. *)
Theorem program_writes_its_active_statements (ss : list Statement)
    (w : World) :
  is_open (logFile w) = false →
  logFileName w ∉ denied w →
  ss ≠ [] →
  let w' := (run_statements cfg ss w).2 in
  let text := (statements_text cfg ios_init ss).1 in
  disk w' !! logFileName w = Some text ∧
  trace w'
  = (trace w ++ EvOpen (logFileName w) true ::
       replicate (active_count cfg ss) EvNow)%list ∧
  (forallb statement_nl_free ss = true →
   count_nl text = active_count cfg ss).
Proof.
  intros Hc Hd Hne. cbv zeta.
  split; [|split; [|by apply statements_text_count]];
    (destruct ss as [|s ss]; [done|]).
  all: rewrite run_statements_cons_snd.
  all: set (w0 := set_clock (st_time s) w).
  all: destruct (getLogFile_first w0 Hc Hd) as (H1 & Hp & Hs & _ & Hk).
  all: destruct (getLogFile_first_full w0 Hc Hd) as (Hg & Hdk & Ht).
  all: rewrite (SIMPLE_LOGGER_LOG_after_getLogFile (st_level s)
                  (st_location s) (st_tokens s) w0 Hg H1).
  all: change (logFileName w0) with (logFileName w) in *.
  all: change (trace w0) with (trace w) in Ht.
  all: change (clock w0) with (st_time s) in Hk.
  all: assert (Hf : ios_fail (get_ios LogFile (getLogFile w0).2) = false)
         by (by rewrite Hs).
  all: revert Hg Hp Hs Hdk Ht Hk Hf;
       generalize (getLogFile w0).2 as w1; intros w1 Hg Hp Hs Hdk Ht Hk Hf.
  all: pose proof (statement_on_open_file (st_level s) (st_location s)
         (st_tokens s) w1 (logFileName w) "" Hp Hf Hdk) as H;
       cbv zeta in H; destruct H as (Hp2 & Hf2 & H).
  all: rewrite Hs, Hk in H.
  all: rewrite ?statements_text_cons, ?active_count_cons.
  all: destruct (is_active cfg (st_level s)) eqn:Hact.
  - destruct H as (Hc2 & Hs2 & Ht2).
    destruct (run_statements_on_open_file ss _ _ _ Hp2 Hf2 Hc2)
      as (-> & _). rewrite Hs2. cbv zeta. cbn [fst snd].
    by rewrite !str_app_nil_l, !str_app_assoc.
  - rewrite H.
    destruct (run_statements_on_open_file ss _ _ _ Hp Hf Hdk) as (-> & _).
    by rewrite Hs, str_app_nil_l.
  - destruct H as (Hc2 & Hs2 & Ht2).
    destruct (run_statements_on_open_file ss _ _ _ Hp2 Hf2 Hc2)
      as (_ & _ & _ & ->).
    rewrite Ht2, Ht. simpl.
    by rewrite <- !(assoc_L (++) (A:=list Event)).
  - rewrite H.
    destruct (run_statements_on_open_file ss _ _ _ Hp Hf Hdk)
      as (_ & _ & _ & ->).
    rewrite Ht. simpl. by rewrite <- !(assoc_L (++) (A:=list Event)).
Qed.

End ProgramFacts.

Lemma program_writes_its_active_statements_witness :
  let location :=
    {| file_name := "/src/main.cpp"; line := 7; function_name := "main" |} in
  let ss :=
    [ {| st_time := 0; st_level := LogLevel.Debug; st_location := location;
         st_tokens := [TStr "starting"] |};
      {| st_time := 1234 * ns_per_ms; st_level := LogLevel.Warning;
         st_location := location; st_tokens := [TStr "disk full"] |};
      {| st_time := 5 * ns_per_s; st_level := LogLevel.Error;
         st_location := location; st_tokens := [TStr "code "; TLong 3] |} ] in
  let w := initial_world config_ndebug {["Info.log" := "kept"]} ∅ 0 in
  disk (run_statements config_ndebug ss w).2 !! "Info.log"
  = Some ("[00:00:01.034][Warning][main.cpp:7][main] disk full" ++
          endl_text ++
          "[00:00:05.000][Error][main.cpp:7][main] code 3" ++ endl_text).
Proof.
  exact (proj1 (program_writes_its_active_statements config_ndebug
    [ {| st_time := 0; st_level := LogLevel.Debug;
         st_location := {| file_name := "/src/main.cpp"; line := 7;
                           function_name := "main" |};
         st_tokens := [TStr "starting"] |};
      {| st_time := 1234 * ns_per_ms; st_level := LogLevel.Warning;
         st_location := {| file_name := "/src/main.cpp"; line := 7;
                           function_name := "main" |};
         st_tokens := [TStr "disk full"] |};
      {| st_time := 5 * ns_per_s; st_level := LogLevel.Error;
         st_location := {| file_name := "/src/main.cpp"; line := 7;
                           function_name := "main" |};
         st_tokens := [TStr "code "; TLong 3] |} ]
    (initial_world config_ndebug {["Info.log" := "kept"]} ∅ 0)
    eq_refl (not_elem_of_empty _) ltac:(discriminate))).
Defined.

(** ** A log file that stays unopenable *)

Lemma count_events_app (p : Event → bool) (a b : list Event) :
  count_events p (a ++ b) = (count_events p a + count_events p b)%nat.
Proof. unfold count_events. by rewrite List.filter_app, List.length_app. Qed.

Section UnopenableProgram.

Context (cfg : SimpleLoggerConfig).

(** X9. While the log file cannot be opened a whole program of
    [LOG_...] statements leaves the disk and every destination as they
    were.  Every statement, at or above the threshold or not, makes its
    own attempt to open the file; none succeeds; the clock is still read
    once per statement at or above the threshold. *)
Theorem program_with_unopenable_file (ss : list Statement) (w : World) :
  is_open (logFile w) = false →
  logFileName w ∈ denied w →
  let w' := (run_statements cfg ss w).2 in
  disk w' = disk w ∧
  (∀ r, bytes_of r w' = bytes_of r w) ∧
  is_open (logFile w') = false ∧
  count_events is_open_attempt (trace w')
  = (count_events is_open_attempt (trace w) + List.length ss)%nat ∧
  count_events is_truncation (trace w')
  = count_events is_truncation (trace w) ∧
  count_events is_clock_read (trace w')
  = (count_events is_clock_read (trace w) + active_count cfg ss)%nat.
Proof.
  revert w. induction ss as [|s ss IH]; intros w Hc Hd; cbv zeta.
  - simpl. unfold active_count. simpl. repeat split; (done || lia).
  - rewrite !run_statements_cons_snd.
    destruct (SIMPLE_LOGGER_LOG_unopenable cfg (st_level s) (st_location s)
                (st_tokens s) (set_clock (st_time s) w) Hc Hd)
      as (Hdk & Hb & Ho & Hn & Hx & Ht).
    change (logFileName (set_clock (st_time s) w)) with (logFileName w) in *.
    change (denied (set_clock (st_time s) w)) with (denied w) in *.
    change (disk (set_clock (st_time s) w)) with (disk w) in *.
    change (trace (set_clock (st_time s) w)) with (trace w) in *.
    revert Hdk Hb Ho Hn Hx Ht.
    generalize (SIMPLE_LOGGER_LOG cfg (st_level s) getLogFile (st_location s)
                  (st_tokens s) (set_clock (st_time s) w)).2 as w1.
    intros w1 Hdk Hb Ho Hn Hx Ht.
    destruct (IH w1) as (Hdk2 & Hb2 & Ho2 & Hc1 & Hc2 & Hc3);
      [done | by rewrite Hn, Hx |].
    rewrite Hdk2, Hc1, Hc2, Hc3, Ht, active_count_cons.
    split; [done|]. split.
    { intros r. rewrite Hb2, Hb. by destruct r. }
    split; [done|].
    rewrite !count_events_app.
    destruct (is_active cfg (st_level s)); unfold count_events; simpl;
      repeat split; lia.
Qed.

(** X10. The name of the log file is read when the file is opened, not
    before and not after.  Assigning [logFileName] while the file is open
    changes nothing: [getLogFile] opens no file and a statement at or
    above the threshold goes on writing to the file that is open.
    Assigning it while the file is closed makes the next [getLogFile] open
    the new name, and no other file is touched. *)
Theorem logFileName_is_read_at_first_open (level : LogLevel)
    (location : source_location) (toks : list Token) (name p : string)
    (w : World) :
  (is_open (logFile w) = true →
   getLogFile (set_logFileName name w) = (LogFile, set_logFileName name w)) ∧
  (is_active cfg level = true → of_path (logFile w) = Some p →
   ios_fail (get_ios LogFile w) = false →
   disk (SIMPLE_LOGGER_LOG cfg level getLogFile location toks
           (set_logFileName name w)).2 !! p
   = Some (bytes_of LogFile w ++
           (render (get_ios LogFile w)
              (preamble_tokens cfg level (clock w) location ++ toks)).1 ++
           endl_text)) ∧
  (is_open (logFile w) = false → name ∉ denied w →
   of_path (logFile (getLogFile (set_logFileName name w)).2) = Some name ∧
   disk (getLogFile (set_logFileName name w)).2 !! name = Some "" ∧
   ∀ other, other ≠ name →
     disk (getLogFile (set_logFileName name w)).2 !! other
     = disk w !! other).
Proof.
  split; [|split].
  - intros Ho. by apply getLogFile_open.
  - intros Hact Hp Hf.
    exact (SIMPLE_LOGGER_LOG_on_open_file cfg level location toks
             (set_logFileName name w) p Hact Hp Hf).
  - intros Hc Hd.
    rewrite (getLogFile_closed (set_logFileName name w)) by done.
    unfold ofstream_open.
    change (logFileName (set_logFileName name w)) with name.
    rewrite bool_decide_false by done. simpl.
    rewrite lookup_insert_eq. split; [done|]. split; [done|].
    intros other Hne. by rewrite lookup_insert_ne.
Qed.

End UnopenableProgram.

Lemma program_with_unopenable_file_witness :
  let ss :=
    [ {| st_time := 0; st_level := LogLevel.Debug;
         st_location := {| file_name := "/src/main.cpp"; line := 7;
                           function_name := "main" |};
         st_tokens := [TStr "starting"] |};
      {| st_time := 5; st_level := LogLevel.Error;
         st_location := {| file_name := "/src/main.cpp"; line := 9;
                           function_name := "main" |};
         st_tokens := [TStr "lost"] |} ] in
  let w := initial_world config_ndebug {["Info.log" := "kept"]}
             {["Info.log"]} 0 in
  disk (run_statements config_ndebug ss w).2 = disk w.
Proof.
  exact (proj1 (program_with_unopenable_file config_ndebug
    [ {| st_time := 0; st_level := LogLevel.Debug;
         st_location := {| file_name := "/src/main.cpp"; line := 7;
                           function_name := "main" |};
         st_tokens := [TStr "starting"] |};
      {| st_time := 5; st_level := LogLevel.Error;
         st_location := {| file_name := "/src/main.cpp"; line := 9;
                           function_name := "main" |};
         st_tokens := [TStr "lost"] |} ]
    (initial_world config_ndebug {["Info.log" := "kept"]} {["Info.log"]} 0)
    eq_refl ltac:(by vm_compute))).
Defined.

Lemma logFileName_is_read_at_first_open_witness :
  let w := initial_world config_ndebug {["Info.log" := "kept"]} ∅ 0 in
  of_path (logFile (getLogFile (set_logFileName "app.log" w)).2)
  = Some "app.log" ∧
  disk (getLogFile (set_logFileName "app.log" w)).2 !! "app.log" = Some "" ∧
  ∀ other, other ≠ "app.log" →
    disk (getLogFile (set_logFileName "app.log" w)).2 !! other
    = disk w !! other.
Proof.
  exact (proj2 (proj2 (logFileName_is_read_at_first_open config_ndebug
    LogLevel.Error
    {| file_name := "/src/main.cpp"; line := 7; function_name := "main" |}
    [] "app.log" "Info.log"
    (initial_world config_ndebug {["Info.log" := "kept"]} ∅ 0)))
    eq_refl (not_elem_of_empty _)).
Defined.

(** ** The width of the timestamp *)

Lemma str_length_app (s t : string) :
  String.length (s ++ t) = (String.length s + String.length t)%nat.
Proof.
  induction s as [|a s IH]; [done|]. rewrite str_app_cons. simpl.
  by rewrite IH.
Qed.

Lemma field2_length (z : Z) :
  (-9 ≤ z ≤ 99)%Z → String.length (pad "0" 2 (decimal z)) = 2.
Proof.
  intros H. destruct z as [|p|p]; [done| |].
  - do 7 (try destruct p as [p|p|]); try lia; reflexivity.
  - do 4 (try destruct p as [p|p|]); try lia; reflexivity.
Qed.

Lemma field3_length (z : Z) :
  (0 ≤ z ≤ 99)%Z → String.length (pad "0" 3 (decimal z)) = 3.
Proof.
  intros H. destruct (ms_field_shape z) as (d1 & d2 & ->); [lia|done].
Qed.

(** X11. For a clock that reads a time after the epoch, a timezone
    adjustment between -9 and 76 hours, and a destination with the
    formatting flags of an untouched stream, the timestamp [print_time]
    appends is twelve characters long: every field fills its width
    exactly. *)
Theorem print_time_fixed_width (cfg : SimpleLoggerConfig)
    (this : SimpleLogger) (w : World) :
  is_active cfg (Level this) = true →
  accepting (m_stream this) w = true →
  default_format (ios_flags (get_ios (m_stream this) w)) = true →
  (0 ≤ clock w)%Z →
  (-9 ≤ timezoneAdjustment cfg ≤ 76)%Z →
  ∃ ts,
    bytes_of (m_stream this) (print_time cfg this w).2
    = bytes_of (m_stream this) w ++ ts ∧
    String.length ts = 12.
Proof.
  intros Hact Ha Hd Ht Htz. exists (timestamp cfg (clock w)).
  split.
  { by rewrite print_time_appends_timestamp, timestamp_with_default. }
  unfold timestamp, duration_cast.
  rewrite !Z.quot_div_nonneg by done.
  rewrite !Z.rem_mod_nonneg by (done || by apply Z.div_pos).
  pose proof (Z.mod_pos_bound (clock w / ns_per_h) 24).
  pose proof (Z.mod_pos_bound (clock w / ns_per_min) 60).
  pose proof (Z.mod_pos_bound (clock w / ns_per_s) 60).
  pose proof (Z.mod_pos_bound (clock w / ns_per_ms) 100).
  rewrite !str_length_app, !field2_length, field3_length by lia.
  reflexivity.
Qed.

Lemma print_time_fixed_width_witness :
  let cfg := {| logLevel := LogLevel.Info; timezoneAdjustment := -5 |} in
  let this := {| Level := LogLevel.Error; m_stream := Caller 0 |} in
  let w := initial_world cfg ∅ ∅ (2 * ns_per_h) in
  ∃ ts,
    bytes_of (Caller 0) (print_time cfg this w).2
    = bytes_of (Caller 0) w ++ ts ∧
    String.length ts = 12.
Proof.
  exact (print_time_fixed_width
    {| logLevel := LogLevel.Info; timezoneAdjustment := -5 |}
    {| Level := LogLevel.Error; m_stream := Caller 0 |}
    (initial_world {| logLevel := LogLevel.Info; timezoneAdjustment := -5 |}
       ∅ ∅ (2 * ns_per_h))
    eq_refl eq_refl eq_refl ltac:(by vm_compute) ltac:(simpl; lia)).
Defined.
